(** * Claude Code Windows installer: the detection-driven orchestration

    A shallow embedding of [claude_code_installer.py]: the probes and
    installers of [WSLManager], [ClaudeCodeManager] and
    [ContextMenuManager], the command-line orchestrator [ClaudeInstaller]
    and the dispatch of [main].

    The host is a value of type [World]; every Python method becomes a
    computation in a small state-and-exception monad that also collects,
    in order, the events the method causes (processes started, registry
    and file operations, console lines, operator prompts).

    Modelling conventions.
    - The entry of a manager method and its normal return are recorded as
      events of their own ([Enter], [Leave]); they make "a stage was
      probed" and "an installer was invoked" statements about a run.
    - Text is a sequence of 8-bit characters read as code points 0..255;
      [str.lower] and [str.strip] are modelled on that range.
    - [logger] calls write to a log file and are left out; [colored_print]
      is kept, with the parts of a message that interpolate values the
      model does not carry (exception text, interpreter version) dropped.
    - The registry is the set of keys present under HKEY_CLASSES_ROOT; key
      values are written but never read by the program and appear only as
      events. A key path is split at backslashes and empty components are
      dropped, as the registry does.
    - The Tk front end ([ClaudeInstallerGUI]) is outside the model; [main]
      records that it was entered.
    - Asynchronous interruption (KeyboardInterrupt) is not modelled. *)

From Stdlib Require Import ZArith String Ascii List Bool Lia.
From stdpp Require Import base decidable option list countable gmap strings.

Open Scope string_scope.
Open Scope list_scope.

(** ** Text operations of Python's [str] *)

Module Str.

(** [str.isspace] on code points below 256. *)
Definition isspace (c : ascii) : bool :=
  let n := nat_of_ascii c in
  (((9 <=? n) && (n <=? 13)) || ((28 <=? n) && (n <=? 32))
   || (n =? 133) || (n =? 160))%nat.

Definition lower_char (c : ascii) : ascii :=
  let n := nat_of_ascii c in
  if (((65 <=? n) && (n <=? 90)) || ((192 <=? n) && (n <=? 214))
      || ((216 <=? n) && (n <=? 222)))%nat
  then ascii_of_nat (n + 32) else c.

(** [s.lower()] *)
Fixpoint lower (s : string) : string :=
  match s with
  | EmptyString => EmptyString
  | String c s' => String (lower_char c) (lower s')
  end.

Fixpoint lstrip (s : string) : string :=
  match s with
  | EmptyString => EmptyString
  | String c s' => if isspace c then lstrip s' else s
  end.

Fixpoint rstrip (s : string) : string :=
  match s with
  | EmptyString => EmptyString
  | String c s' =>
      match rstrip s' with
      | EmptyString => if isspace c then EmptyString else String c EmptyString
      | r => String c r
      end
  end.

(** [s.strip()] *)
Definition strip (s : string) : string := rstrip (lstrip s).

(** [s.replace(c, '')] for a one-character [c]. *)
Fixpoint remove_char (c : ascii) (s : string) : string :=
  match s with
  | EmptyString => EmptyString
  | String d s' =>
      if Ascii.eqb d c then remove_char c s' else String d (remove_char c s')
  end.

Fixpoint startswith (p s : string) : bool :=
  match p, s with
  | EmptyString, _ => true
  | String _ _, EmptyString => false
  | String a p', String b s' => Ascii.eqb a b && startswith p' s'
  end.

(** [p in s] *)
Fixpoint contains (p s : string) : bool :=
  match s with
  | EmptyString => startswith p EmptyString
  | String _ s' => startswith p s || contains p s'
  end.

(** Truth value of a string: non-empty. *)
Definition truthy (s : string) : bool :=
  match s with EmptyString => false | String _ _ => true end.

(** [x in ['y', 'yes']] *)
Definition is_yes (s : string) : bool :=
  String.eqb s "y" || String.eqb s "yes".

Definition NUL : ascii := "000"%char.

(** The last character of a non-empty pattern is not white space. *)
Fixpoint ends_solid (p : string) : bool :=
  match p with
  | EmptyString => false
  | String c EmptyString => negb (isspace c)
  | String _ p' => ends_solid p'
  end.

Definition starts_solid (p : string) : bool :=
  match p with
  | EmptyString => false
  | String c _ => negb (isspace c)
  end.

(** Modelled on the wording "appears (case-insensitive) in the text":
    some contiguous piece of [text] equals [name] up to letter case. *)
Definition appears_ci (name text : string) : Prop :=
  exists pre mid post : string,
    text = pre +:+ mid +:+ post /\ lower mid = lower name.

End Str.

(** ** The host and the events of a run *)

Definition Command := list string.

(** What starting a process with [subprocess.run(..., timeout=300)] can
    lead to. *)
Inductive ProcOutcome :=
| Exited (rc : Z) (out : string)   (* the process ran and exited *)
| Missing                          (* no such executable *)
| Hangs.                           (* still running after 300 seconds *)

Record CompletedProcess := { returncode : Z; stdout : string }.

Inductive Exn :=
| FileNotFoundError
| PermissionError
| CalledProcessError
| TimeoutExpired
| EOFError
| TclError.

(** [WindowsError] is [OSError]. *)
Definition is_WindowsError (e : Exn) : bool :=
  match e with
  | FileNotFoundError | PermissionError => true
  | _ => false
  end.

(** A registry key below HKEY_CLASSES_ROOT, as its path components. *)
Definition Key := list string.

Fixpoint split_path_aux (s : string) (cur : string) : list string :=
  match s with
  | EmptyString =>
      match cur with EmptyString => [] | _ => [cur] end
  | String c s' =>
      if Ascii.eqb c "\"%char
      then match cur with
           | EmptyString => split_path_aux s' EmptyString
           | _ => cur :: split_path_aux s' EmptyString
           end
      else split_path_aux s' (cur +:+ String c EmptyString)
  end.

Definition split_path (s : string) : Key := split_path_aux s EmptyString.

Definition HKEY_CLASSES_ROOT : Key := [].

Definition subkey (parent : Key) (sub : string) : Key :=
  parent ++ split_path sub.

Fixpoint ancestors_or_self (k : Key) : list Key :=
  match k with
  | [] => []
  | c :: k' => [c] :: map (cons c) (ancestors_or_self k')
  end.

(** The methods the orchestrator calls on its three managers. *)
Inductive Method :=
| IsWslInstalled | IsUbuntuInstalled | IsClaudeInstalled | IsInstalled
| InstallWsl | InstallUbuntu | SetupUbuntuEnvironment | InstallClaudeCode
| InstallContextMenu | UninstallContextMenu.

Inductive Event :=
| Enter (m : Method)
| Leave (m : Method) (r : bool)
| Run (command : Command) (check : bool)
| RegOpenKey (k : Key)
| RegCreateKey (k : Key)
| RegSetValue (k : Key) (name : string)
| RegDeleteKey (k : Key)
| FsMkdir (path : string)
| FsWrite (path : string)
| FsUnlink (path : string)
| FsRmdir (path : string)
| Printed (msg : string)
| Input (prompt : string) (answer : option string)
| GuiMainloop.

Record World := mkWorld {
  IsUserAnAdmin : option bool;        (* [None]: the shell32 call raises *)
  version_info : nat * nat;           (* interpreter (major, minor) *)
  platform_version : option string;   (* [None]: platform.version() raises *)
  tk_available : bool;                (* a Tk window can be created *)
  respond : list Command -> Command -> ProcOutcome;
                                      (* the process layer: what a command
                                         leads to, given those run before *)
  issued : list Command;              (* commands run so far, oldest first *)
  hkcr : gset Key;                    (* keys present *)
  hkcr_writable : bool;
  c_scripts : option (gset string);   (* entries of C:/Scripts, if it exists *)
  disk_writable : bool;
  stdin : list string                 (* the operator's pending answers *)
}.

Definition set_issued (w : World) (l : list Command) : World :=
  mkWorld (IsUserAnAdmin w) (version_info w) (platform_version w)
    (tk_available w) (respond w) l (hkcr w) (hkcr_writable w)
    (c_scripts w) (disk_writable w) (stdin w).

Definition set_hkcr (w : World) (r : gset Key) : World :=
  mkWorld (IsUserAnAdmin w) (version_info w) (platform_version w)
    (tk_available w) (respond w) (issued w) r (hkcr_writable w)
    (c_scripts w) (disk_writable w) (stdin w).

Definition set_c_scripts (w : World) (d : option (gset string)) : World :=
  mkWorld (IsUserAnAdmin w) (version_info w) (platform_version w)
    (tk_available w) (respond w) (issued w) (hkcr w) (hkcr_writable w)
    d (disk_writable w) (stdin w).

Definition set_stdin (w : World) (l : list string) : World :=
  mkWorld (IsUserAnAdmin w) (version_info w) (platform_version w)
    (tk_available w) (respond w) (issued w) (hkcr w) (hkcr_writable w)
    (c_scripts w) (disk_writable w) l.

(** ** The monad: state, exceptions and the event log *)

Inductive Res (A : Type) :=
| Ret (a : A)
| Raise (e : Exn).
Arguments Ret {A} a.
Arguments Raise {A} e.

Record Outcome (A : Type) := mkOutcome {
  result : Res A;
  final : World;
  events : list Event
}.
Arguments mkOutcome {A} _ _ _.
Arguments result {A} _.
Arguments final {A} _.
Arguments events {A} _.

Definition M (A : Type) : Type := World -> Outcome A.

Definition ret {A} (a : A) : M A := fun w => mkOutcome (Ret a) w [].

Definition raise {A} (e : Exn) : M A := fun w => mkOutcome (Raise e) w [].

Definition bind {A B} (m : M A) (f : A -> M B) : M B :=
  fun w =>
    let o := m w in
    match result o with
    | Ret a =>
        let o' := f a (final o) in
        mkOutcome (result o') (final o') (events o ++ events o')
    | Raise e => mkOutcome (Raise e) (final o) (events o)
    end.

(** [try: body except ...: handler]; the handler answers [None] for an
    exception no clause matches. *)
Definition try_except {A} (body : M A) (handler : Exn -> option (M A)) : M A :=
  fun w =>
    let o := body w in
    match result o with
    | Ret a => o
    | Raise e =>
        match handler e with
        | Some h =>
            let o' := h (final o) in
            mkOutcome (result o') (final o') (events o ++ events o')
        | None => o
        end
    end.

Declare Scope py_scope.
Delimit Scope py_scope with py.
Notation "x <- m ;; k" := (bind m (fun x => k))
  (at level 100, m at next level, right associativity) : py_scope.
Notation "m ;; k" := (bind m (fun _ => k))
  (at level 100, right associativity) : py_scope.
Open Scope py_scope.

Definition emit (e : Event) : M unit := fun w => mkOutcome (Ret tt) w [e].

Definition when (b : bool) (m : M unit) : M unit := if b then m else ret tt.

(** [except Exception] *)
Definition any_exception {A} (h : M A) : Exn -> option (M A) :=
  fun _ => Some h.

(** [except WindowsError] *)
Definition windows_error {A} (h : M A) : Exn -> option (M A) :=
  fun e => if is_WindowsError e then Some h else None.

(** [except FileNotFoundError] *)
Definition file_not_found {A} (h : M A) : Exn -> option (M A) :=
  fun e => match e with FileNotFoundError => Some h | _ => None end.

(** A manager method, with its entry and its normal return recorded. *)
Definition method (m : Method) (body : M bool) : M bool :=
  emit (Enter m) ;;
  r <- body ;;
  emit (Leave m r) ;;
  ret r.

(** ** Module-level functions *)

Definition colored_print (message : string) : M unit := emit (Printed message).

Definition is_admin : M bool :=
  fun w =>
    mkOutcome (Ret (match IsUserAnAdmin w with Some b => b | None => false end))
      w [].

Definition input (prompt : string) : M string :=
  fun w =>
    match stdin w with
    | [] => mkOutcome (Raise EOFError) w [Input prompt None]
    | a :: rest => mkOutcome (Ret a) (set_stdin w rest) [Input prompt (Some a)]
    end.

Definition run_command (command : Command) (check : bool) : M CompletedProcess :=
  fun w =>
    let w' := set_issued w (issued w ++ [command]) in
    let ev := [Run command check] in
    match respond w (issued w) command with
    | Exited rc out =>
        if check && negb (rc =? 0)%Z
        then mkOutcome (Raise CalledProcessError) w' ev
        else mkOutcome (Ret {| returncode := rc; stdout := out |}) w' ev
    | Missing => mkOutcome (Raise FileNotFoundError) w' ev
    | Hangs => mkOutcome (Raise TimeoutExpired) w' ev
    end.

(** ** The registry and file operations the program uses *)

Module winreg.

Definition has_subkeys (r : gset Key) (k : Key) : bool :=
  bool_decide (set_Exists (fun k' => k `prefix_of` k' /\ k <> k') r).

Definition OpenKey (key : Key) (sub_key : string) : M Key :=
  fun w =>
    let k := subkey key sub_key in
    if bool_decide (k ∈ hkcr w)
    then mkOutcome (Ret k) w [RegOpenKey k]
    else mkOutcome (Raise FileNotFoundError) w [RegOpenKey k].

Definition CloseKey (key : Key) : M unit := ret tt.

(** Creates the key and the missing keys on the way to it, or opens it
    when it exists. *)
Definition CreateKey (key : Key) (sub_key : string) : M Key :=
  fun w =>
    let k := subkey key sub_key in
    if hkcr_writable w
    then mkOutcome (Ret k)
           (set_hkcr w (hkcr w ∪ list_to_set (ancestors_or_self k)))
           [RegCreateKey k]
    else mkOutcome (Raise PermissionError) w [RegCreateKey k].

(** [SetValue(key, '', REG_SZ, v)] and [SetValueEx(key, name, 0, REG_SZ, v)]:
    [name] is the empty string for the default value. *)
Definition SetValue (key : Key) (name : string) : M unit :=
  fun w =>
    if hkcr_writable w
    then mkOutcome (Ret tt) w [RegSetValue key name]
    else mkOutcome (Raise PermissionError) w [RegSetValue key name].

(** Deletes a key that exists and has no subkeys. *)
Definition DeleteKey (key : Key) (sub_key : string) : M unit :=
  fun w =>
    let k := subkey key sub_key in
    if negb (bool_decide (k ∈ hkcr w))
    then mkOutcome (Raise FileNotFoundError) w [RegDeleteKey k]
    else if has_subkeys (hkcr w) k || negb (hkcr_writable w)
    then mkOutcome (Raise PermissionError) w [RegDeleteKey k]
    else mkOutcome (Ret tt) (set_hkcr w (hkcr w ∖ {[ k ]})) [RegDeleteKey k].

End winreg.

Module Path.

(** The one directory the program touches, and the launcher in it. *)
Definition scripts_dir : string := "C:/Scripts".
Definition launcher_name : string := "open_in_claude.cmd".
Definition launcher_path : string := "C:/Scripts/open_in_claude.cmd".

(** [scripts_dir.mkdir(exist_ok=True)] *)
Definition mkdir_exist_ok : M unit :=
  fun w =>
    match c_scripts w with
    | Some _ => mkOutcome (Ret tt) w [FsMkdir scripts_dir]
    | None =>
        if disk_writable w
        then mkOutcome (Ret tt) (set_c_scripts w (Some ∅)) [FsMkdir scripts_dir]
        else mkOutcome (Raise PermissionError) w [FsMkdir scripts_dir]
    end.

(** [with open(launcher_path, 'w') as f: f.write(...)] *)
Definition write_launcher : M unit :=
  fun w =>
    match c_scripts w with
    | None => mkOutcome (Raise FileNotFoundError) w [FsWrite launcher_path]
    | Some d =>
        if disk_writable w
        then mkOutcome (Ret tt)
               (set_c_scripts w (Some (d ∪ {[ launcher_name ]})))
               [FsWrite launcher_path]
        else mkOutcome (Raise PermissionError) w [FsWrite launcher_path]
    end.

(** [launcher_path.exists()] *)
Definition launcher_exists : M bool :=
  fun w =>
    mkOutcome
      (Ret (match c_scripts w with
            | Some d => bool_decide (launcher_name ∈ d)
            | None => false
            end)) w [].

(** [launcher_path.unlink()] *)
Definition unlink_launcher : M unit :=
  fun w =>
    match c_scripts w with
    | None => mkOutcome (Raise FileNotFoundError) w [FsUnlink launcher_path]
    | Some d =>
        if negb (bool_decide (launcher_name ∈ d))
        then mkOutcome (Raise FileNotFoundError) w [FsUnlink launcher_path]
        else if disk_writable w
        then mkOutcome (Ret tt)
               (set_c_scripts w (Some (d ∖ {[ launcher_name ]})))
               [FsUnlink launcher_path]
        else mkOutcome (Raise PermissionError) w [FsUnlink launcher_path]
    end.

(** [scripts_dir.exists() and not any(scripts_dir.iterdir())] *)
Definition exists_and_empty : M bool :=
  fun w =>
    mkOutcome
      (Ret (match c_scripts w with
            | Some d => bool_decide (d = ∅)
            | None => false
            end)) w [].

(** [scripts_dir.rmdir()] *)
Definition rmdir : M unit :=
  fun w =>
    match c_scripts w with
    | None => mkOutcome (Raise FileNotFoundError) w [FsRmdir scripts_dir]
    | Some d =>
        if bool_decide (d = ∅) && disk_writable w
        then mkOutcome (Ret tt) (set_c_scripts w None) [FsRmdir scripts_dir]
        else mkOutcome (Raise PermissionError) w [FsRmdir scripts_dir]
    end.

End Path.

(** ** class WSLManager *)

Module WSLManager.

Definition is_wsl_installed : M bool :=
  method IsWslInstalled
    (try_except
       (result <- run_command ["wsl"; "--version"] false ;;
        ret (returncode result =? 0)%Z)
       (file_not_found (ret false))).

Definition is_ubuntu_installed : M bool :=
  method IsUbuntuInstalled
    (try_except
       (result <- run_command ["wsl"; "-l"; "-v"] false ;;
        if (returncode result =? 0)%Z
        then
          let clean_output :=
            Str.strip (Str.remove_char Str.NUL (stdout result)) in
          let output_lower := Str.lower clean_output in
          let has_ubuntu := Str.contains "ubuntu" output_lower in
          ret has_ubuntu
        else ret false)
       (any_exception (ret false))).

Definition install_wsl : M bool :=
  method InstallWsl
    (try_except
       (colored_print "Installing WSL..." ;;
        run_command ["wsl"; "--install"; "--no-launch"] true ;;
        colored_print "WSL installed successfully!" ;;
        ret true)
       (any_exception
          (colored_print "Failed to install WSL" ;;
           ret false))).

Definition install_ubuntu : M bool :=
  method InstallUbuntu
    (try_except
       (colored_print "Installing Ubuntu distribution..." ;;
        run_command ["wsl"; "--install"; "-d"; "Ubuntu"; "--no-launch"] true ;;
        colored_print "Ubuntu installed successfully!" ;;
        ret true)
       (any_exception
          (colored_print "Failed to install Ubuntu" ;;
           ret false))).

Definition setup_ubuntu_environment : M bool :=
  method SetupUbuntuEnvironment
    (try_except
       (colored_print "Setting up Ubuntu environment..." ;;
        colored_print "Updating package lists..." ;;
        run_command
          ["wsl"; "-d"; "Ubuntu"; "--"; "sudo"; "apt"; "update"; "-y"] true ;;
        run_command
          ["wsl"; "-d"; "Ubuntu"; "--"; "sudo"; "apt"; "upgrade"; "-y"] true ;;
        colored_print "Installing essential packages..." ;;
        run_command
          ["wsl"; "-d"; "Ubuntu"; "--"; "sudo"; "apt"; "install"; "-y";
           "curl"; "wget"; "git"; "build-essential"] true ;;
        colored_print "Installing Node.js and npm..." ;;
        run_command
          ["wsl"; "-d"; "Ubuntu"; "--"; "curl"; "-fsSL";
           "https://deb.nodesource.com/setup_18.x"; "|"; "sudo"; "-E";
           "bash"; "-"] true ;;
        run_command
          ["wsl"; "-d"; "Ubuntu"; "--"; "sudo"; "apt"; "install"; "-y";
           "nodejs"] true ;;
        node_result <-
          run_command ["wsl"; "-d"; "Ubuntu"; "--"; "node"; "--version"] true ;;
        npm_result <-
          run_command ["wsl"; "-d"; "Ubuntu"; "--"; "npm"; "--version"] true ;;
        colored_print ("Node.js version: " +:+ Str.strip (stdout node_result)) ;;
        colored_print ("npm version: " +:+ Str.strip (stdout npm_result)) ;;
        ret true)
       (any_exception
          (colored_print "Failed to setup Ubuntu environment" ;;
           ret false))).

End WSLManager.

(** ** class ClaudeCodeManager *)

Module ClaudeCodeManager.

Definition is_claude_installed : M bool :=
  method IsClaudeInstalled
    (try_except
       (result <-
          run_command ["wsl"; "-d"; "Ubuntu"; "bash"; "-ic"; "which claude"]
            false ;;
        if (returncode result =? 0)%Z && Str.truthy (Str.strip (stdout result))
        then ret true
        else
          result2 <-
            run_command
              ["wsl"; "-d"; "Ubuntu"; "bash"; "-ic"; "claude --version"]
              false ;;
          if (returncode result2 =? 0)%Z
          then ret true
          else ret false)
       (any_exception (ret false))).

Definition install_claude_code : M bool :=
  method InstallClaudeCode
    (try_except
       (colored_print "Installing Claude Code..." ;;
        run_command
          ["wsl"; "-d"; "Ubuntu"; "--"; "npm"; "config"; "set"; "os"; "linux"]
          true ;;
        run_command
          ["wsl"; "-d"; "Ubuntu"; "--"; "npm"; "install"; "-g";
           "@anthropic-ai/claude-code"; "--force"; "--no-os-check"] true ;;
        version_result <-
          run_command ["wsl"; "-d"; "Ubuntu"; "--"; "claude"; "--version"]
            true ;;
        colored_print "Claude Code installed successfully!" ;;
        colored_print ("Version: " +:+ Str.strip (stdout version_result)) ;;
        ret true)
       (any_exception
          (colored_print "Failed to install Claude Code" ;;
           ret false))).

End ClaudeCodeManager.

(** ** class ContextMenuManager *)

Module ContextMenuManager.

Definition is_installed : M bool :=
  method IsInstalled
    (try_except
       (key <- winreg.OpenKey HKEY_CLASSES_ROOT
                 "Directory\Background\shell\OpenInClaude" ;;
        winreg.CloseKey key ;;
        ret true)
       (windows_error (ret false))).

Definition create_launcher_script : M bool :=
  try_except
    (Path.mkdir_exist_ok ;;
     Path.write_launcher ;;
     colored_print ("Created launcher script: " +:+ Path.launcher_path) ;;
     ret true)
    (any_exception
       (colored_print "Failed to create launcher script" ;;
        ret false)).

Definition install_context_menu : M bool :=
  method InstallContextMenu
    (try_except
       (colored_print "Installing context menu integration..." ;;
        created <- create_launcher_script ;;
        if negb created then ret false
        else
          bg_key <- winreg.CreateKey HKEY_CLASSES_ROOT
                      "Directory\\Background\\shell\\OpenInClaude" ;;
          winreg.SetValue bg_key "" ;;
          winreg.SetValue bg_key "Icon" ;;
          bg_cmd_key <- winreg.CreateKey bg_key "command" ;;
          winreg.SetValue bg_cmd_key "" ;;
          winreg.CloseKey bg_cmd_key ;;
          winreg.CloseKey bg_key ;;
          folder_key <- winreg.CreateKey HKEY_CLASSES_ROOT
                          "Directory\\shell\\OpenInClaude" ;;
          winreg.SetValue folder_key "" ;;
          winreg.SetValue folder_key "Icon" ;;
          folder_cmd_key <- winreg.CreateKey folder_key "command" ;;
          winreg.SetValue folder_cmd_key "" ;;
          winreg.CloseKey folder_cmd_key ;;
          winreg.CloseKey folder_key ;;
          colored_print "Context menu integration installed successfully!" ;;
          ret true)
       (any_exception
          (colored_print "Failed to install context menu" ;;
           ret false))).

Definition uninstall_context_menu : M bool :=
  method UninstallContextMenu
    (try_except
       (colored_print "Removing context menu integration..." ;;
        try_except
          (winreg.DeleteKey HKEY_CLASSES_ROOT
             "Directory\\Background\\shell\\OpenInClaude\\command" ;;
           winreg.DeleteKey HKEY_CLASSES_ROOT
             "Directory\\Background\\shell\\OpenInClaude")
          (windows_error (ret tt)) ;;
        try_except
          (winreg.DeleteKey HKEY_CLASSES_ROOT
             "Directory\\shell\\OpenInClaude\\command" ;;
           winreg.DeleteKey HKEY_CLASSES_ROOT
             "Directory\\shell\\OpenInClaude")
          (windows_error (ret tt)) ;;
        present <- Path.launcher_exists ;;
        when present
          (Path.unlink_launcher ;;
           colored_print ("Removed launcher script: " +:+ Path.launcher_path)) ;;
        try_except
          (empty <- Path.exists_and_empty ;;
           when empty
             (Path.rmdir ;;
              colored_print "Removed empty Scripts directory"))
          (any_exception (ret tt)) ;;
        colored_print "Context menu integration removed successfully!" ;;
        ret true)
       (any_exception
          (colored_print "Failed to remove context menu" ;;
           ret false))).

End ContextMenuManager.

(** ** class ClaudeInstaller *)

Module ClaudeInstaller.

Import WSLManager ClaudeCodeManager ContextMenuManager.

(** [sys.version_info < (3, 6)] *)
Definition version_too_old (v : nat * nat) : bool :=
  ((fst v <? 3) || ((fst v =? 3) && (snd v <? 6)))%nat.

Definition show_windows_version : M unit :=
  fun w =>
    match platform_version w with
    | Some win_version =>
        colored_print ("✓ Windows version: " +:+ win_version) w
    | None => colored_print "Warning: Could not detect Windows version" w
    end.

Definition check_prerequisites : M bool :=
  colored_print "Checking system prerequisites..." ;;
  admin <- is_admin ;;
  if negb admin
  then
    colored_print "ERROR: This installer must be run as Administrator!" ;;
    colored_print "Please run this script as Administrator and try again." ;;
    ret false
  else
    colored_print "✓ Administrator privileges confirmed" ;;
    old <- (fun w => ret (version_too_old (version_info w)) w) ;;
    if (old : bool)
    then
      colored_print "ERROR: Python 3.6 or higher is required!" ;;
      ret false
    else
      colored_print "✓ Python detected" ;;
      show_windows_version ;;
      ret true.

Definition show_success_message : M unit :=
  colored_print "============================================================" ;;
  colored_print "         Installation Complete!" ;;
  colored_print "============================================================" ;;
  colored_print "\nHow to use:" ;;
  colored_print "1. Open Windows Explorer" ;;
  colored_print "2. Navigate to any folder" ;;
  colored_print "3. Right-click in the folder (empty space)" ;;
  colored_print "4. Select 'Open in Claude Code'" ;;
  colored_print "5. Claude Code will launch in that directory!" ;;
  colored_print "\nAlternative usage:" ;;
  colored_print "• Open WSL Ubuntu terminal: type 'ubuntu'" ;;
  colored_print "• Navigate to your project: cd /mnt/c/your/project/path" ;;
  colored_print "• Start Claude Code: claude" ;;
  colored_print
    "\nFor more info: https://docs.anthropic.com/en/docs/claude-code/setup".

(** The five "if needed" sections of [install_full], in source order.
    Each answers whether the installation goes on; [false] is the
    section's [return False]. *)

(* Install WSL if needed *)
Definition wsl_section : M bool :=
  wsl <- is_wsl_installed ;;
  if negb wsl
  then
    colored_print "WSL not found. Installing WSL..." ;;
    installed <- install_wsl ;;
    if negb installed then ret false
    else
      colored_print "WSL installation complete. A restart may be required." ;;
      answer <- input "Do you need to restart your computer now? (y/n): " ;;
      let restart := Str.lower answer in
      if Str.is_yes restart
      then
        colored_print
          "Please restart your computer and run this installer again." ;;
        ret false
      else ret true
  else
    colored_print "✓ WSL is already installed" ;;
    ret true.

(* Install Ubuntu if needed *)
Definition ubuntu_section : M bool :=
  ubuntu <- is_ubuntu_installed ;;
  if negb ubuntu
  then
    colored_print "Ubuntu not found. Installing Ubuntu..." ;;
    installed <- install_ubuntu ;;
    if negb installed then ret false else ret true
  else
    colored_print "✓ Ubuntu is already installed" ;;
    ret true.

(* Setup Ubuntu environment (skip if Claude Code is already installed) *)
Definition environment_section : M bool :=
  claude <- is_claude_installed ;;
  if claude
  then
    colored_print
      "✓ Claude Code already installed, skipping Ubuntu environment setup" ;;
    ret true
  else
    colored_print
      "Setting up Ubuntu environment for Claude Code installation..." ;;
    done <- setup_ubuntu_environment ;;
    if negb done then ret false else ret true.

(* Install Claude Code *)
Definition claude_section : M bool :=
  claude <- is_claude_installed ;;
  if negb claude
  then
    installed <- install_claude_code ;;
    if negb installed then ret false else ret true
  else
    colored_print "✓ Claude Code is already installed" ;;
    ret true.

(* Install context menu *)
Definition context_menu_section : M bool :=
  menu <- is_installed ;;
  if negb menu
  then
    installed <- install_context_menu ;;
    if negb installed then ret false else ret true
  else
    colored_print "✓ Context menu is already installed" ;;
    answer <-
      input "Do you want to update the existing installation? (y/n): " ;;
    let update := Str.lower answer in
    (if Str.is_yes update
     then
       uninstall_context_menu ;;
       install_context_menu ;;
       ret tt
     else ret tt) ;;
    ret true.

Definition install_full : M bool :=
  colored_print "============================================================" ;;
  colored_print "    Claude Code Windows Installer" ;;
  colored_print "============================================================" ;;
  ok <- check_prerequisites ;;
  if negb ok then ret false
  else
    go_on <- wsl_section ;;
    if negb go_on then ret false
    else
      go_on <- ubuntu_section ;;
      if negb go_on then ret false
      else
        go_on <- environment_section ;;
        if negb go_on then ret false
        else
          go_on <- claude_section ;;
          if negb go_on then ret false
          else
            go_on <- context_menu_section ;;
            if negb go_on then ret false
            else
              show_success_message ;;
              ret true.

Definition install_context_menu_only : M bool :=
  colored_print "Installing Claude Code context menu integration..." ;;
  ok <- check_prerequisites ;;
  if negb ok then ret false
  else
    claude <- is_claude_installed ;;
    go_on <-
      (if negb claude
       then
         colored_print "WARNING: Claude Code not found in WSL Ubuntu!" ;;
         colored_print
           "Make sure you have WSL, Ubuntu, and Claude Code installed first." ;;
         answer <- input "Do you want to continue anyway? (y/n): " ;;
         let continue_anyway := Str.lower answer in
         ret (Str.is_yes continue_anyway)
       else ret true) ;;
    if negb go_on then ret false
    else install_context_menu.

Definition uninstall : M bool :=
  colored_print "Uninstalling Claude Code context menu..." ;;
  ok <- check_prerequisites ;;
  if negb ok then ret false
  else
    menu <- is_installed ;;
    if negb menu
    then
      colored_print "✓ Claude Code context menu is not installed" ;;
      ret true
    else uninstall_context_menu.

Definition status_line (name : string) (installed : bool) : string :=
  name +:+ (if installed then ": ✓ Installed" else ": ✗ Not installed").

Definition show_status : M unit :=
  colored_print "============================================================" ;;
  colored_print "    Claude Code Installation Status" ;;
  colored_print "============================================================" ;;
  wsl_installed <- is_wsl_installed ;;
  colored_print (status_line "WSL" wsl_installed) ;;
  ubuntu_installed <- is_ubuntu_installed ;;
  colored_print (status_line "Ubuntu" ubuntu_installed) ;;
  when (negb ubuntu_installed)
    (try_except
       (result <- run_command ["wsl"; "-l"; "-v"] false ;;
        let clean_output :=
          Str.strip (Str.remove_char Str.NUL (stdout result)) in
        colored_print ("Debug - WSL list raw output: " +:+ stdout result) ;;
        colored_print ("Debug - WSL list cleaned output: " +:+ clean_output) ;;
        colored_print "Debug - Return code" ;;
        colored_print
          ("Debug - Looking for 'ubuntu' in: " +:+ Str.lower clean_output))
       (any_exception
          (colored_print "Debug - WSL list command failed"))) ;;
  claude_installed <- is_claude_installed ;;
  colored_print (status_line "Claude Code" claude_installed) ;;
  context_installed <- is_installed ;;
  colored_print (status_line "Context Menu" context_installed).

End ClaudeInstaller.

(** ** main *)

Record Args := mkArgs {
  arg_context_only : bool;
  arg_uninstall : bool;
  arg_status : bool;
  arg_gui : bool;
  arg_console : bool
}.

(** [len(sys.argv) == 1]: no flag was given. *)
Definition no_arguments (a : Args) : bool :=
  negb (arg_context_only a || arg_uninstall a || arg_status a
        || arg_gui a || arg_console a).

(** [gui = ClaudeInstallerGUI(); gui.run()] *)
Definition run_gui : M unit :=
  fun w =>
    if tk_available w
    then mkOutcome (Ret tt) w [GuiMainloop]
    else mkOutcome (Raise TclError) w [].

Definition exit_status (success : bool) : Z := if success then 0%Z else 1%Z.

(** The process exit status of one invocation. *)
Definition main (args : Args) : M Z :=
  finished <-
    (if no_arguments args && negb (arg_console args)
     then
       try_except
         (run_gui ;; ret true)
         (any_exception
            (emit (Printed "GUI failed to start") ;;
             emit (Printed "Falling back to console mode...") ;;
             ret false))
     else ret false) ;;
  if (finished : bool) then ret 0%Z
  else
    try_except
      (if arg_status args
       then ClaudeInstaller.show_status ;; ret 0%Z
       else if arg_uninstall args
       then success <- ClaudeInstaller.uninstall ;; ret (exit_status success)
       else if arg_context_only args
       then
         success <- ClaudeInstaller.install_context_menu_only ;;
         ret (exit_status success)
       else if arg_gui args
       then run_gui ;; ret 0%Z
       else success <- ClaudeInstaller.install_full ;; ret (exit_status success))
      (any_exception
         (colored_print "\nUnexpected error" ;;
          ret 1%Z)).

(** ** Stages, and what a run's events say about them *)

(** The four chained components, in chain order. *)
Inductive Stage :=
| VirtualizationLayer
| GuestDistribution
| ApplicationRuntimeApp
| ShellIntegration.

Definition position (s : Stage) : nat :=
  match s with
  | VirtualizationLayer => 0
  | GuestDistribution => 1
  | ApplicationRuntimeApp => 2
  | ShellIntegration => 3
  end.

Inductive Role := Probe | Apply | Reverse.

Definition stage_of (m : Method) : Stage :=
  match m with
  | IsWslInstalled | InstallWsl => VirtualizationLayer
  | IsUbuntuInstalled | InstallUbuntu => GuestDistribution
  | IsClaudeInstalled | SetupUbuntuEnvironment | InstallClaudeCode =>
      ApplicationRuntimeApp
  | IsInstalled | InstallContextMenu | UninstallContextMenu => ShellIntegration
  end.

Definition role_of (m : Method) : Role :=
  match m with
  | IsWslInstalled | IsUbuntuInstalled | IsClaudeInstalled | IsInstalled => Probe
  | InstallWsl | InstallUbuntu | SetupUbuntuEnvironment | InstallClaudeCode
  | InstallContextMenu => Apply
  | UninstallContextMenu => Reverse
  end.

Definition is_apply (m : Method) : bool :=
  match role_of m with Apply => true | _ => false end.

Definition is_probe (m : Method) : bool :=
  match role_of m with Probe => true | _ => false end.

(** The probe of the stage a method belongs to. *)
Definition probe_of (m : Method) : Method :=
  match stage_of m with
  | VirtualizationLayer => IsWslInstalled
  | GuestDistribution => IsUbuntuInstalled
  | ApplicationRuntimeApp => IsClaudeInstalled
  | ShellIntegration => IsInstalled
  end.

#[global] Instance Method_eq_dec : EqDecision Method.
Proof. solve_decision. Defined.

#[global] Instance Stage_eq_dec : EqDecision Stage.
Proof. solve_decision. Defined.

#[global] Instance Event_eq_dec : EqDecision Event.
Proof. solve_decision. Defined.

(** The orchestration steps among the events: calls of manager methods
    and operator prompts. *)
Definition is_step (e : Event) : bool :=
  match e with
  | Enter _ | Leave _ _ | Input _ _ => true
  | _ => false
  end.

Definition steps (evs : list Event) : list Event := List.filter is_step evs.

Definition call_log {A} (o : Outcome A) : list Event := steps (events o).

(** The commands that only query the host. *)
Definition query_commands : list Command :=
  [ ["wsl"; "--version"];
    ["wsl"; "-l"; "-v"];
    ["wsl"; "-d"; "Ubuntu"; "bash"; "-ic"; "which claude"];
    ["wsl"; "-d"; "Ubuntu"; "bash"; "-ic"; "claude --version"] ].

(** Events that change, or try to change, the host. *)
Definition mutating (e : Event) : bool :=
  match e with
  | Run c _ => negb (bool_decide (c ∈ query_commands))
  | RegCreateKey _ | RegSetValue _ _ | RegDeleteKey _ => true
  | FsMkdir _ | FsWrite _ | FsUnlink _ | FsRmdir _ => true
  | Enter m => negb (is_probe m)
  | _ => false
  end.

Definition read_only (evs : list Event) : bool := forallb (fun e => negb (mutating e)) evs.

Definition is_print (e : Event) : bool :=
  match e with Printed _ => true | _ => false end.

(** The per-stage outcomes of the specification's run report. *)
Inductive ApplyOutcome :=
| Applied
| AlreadySatisfied
| Failed
| SkippedUnmetDependency
| PermissionDenied.

#[global] Instance ApplyOutcome_eq_dec : EqDecision ApplyOutcome.
Proof. solve_decision. Defined.

(** What a returning method call tells about its stage: a satisfied probe,
    or an installer that succeeded or failed. An unsatisfied probe tells
    nothing by itself; the installer that follows does. *)
Definition entry (e : Event) : option (Stage * ApplyOutcome) :=
  match e with
  | Leave m r =>
      match role_of m with
      | Probe => if r then Some (stage_of m, AlreadySatisfied) else None
      | Apply => Some (stage_of m, if r then Applied else Failed)
      | Reverse => None
      end
  | _ => None
  end.

(** Everything a run tells about its stages, in order. *)
Definition report (log : list Event) : list (Stage * ApplyOutcome) :=
  omap entry log.

Definition BG_KEY : Key := ["Directory"; "Background"; "shell"; "OpenInClaude"].
Definition FOLDER_KEY : Key := ["Directory"; "shell"; "OpenInClaude"].

Definition restart_prompt : string :=
  "Do you need to restart your computer now? (y/n): ".
Definition update_prompt : string :=
  "Do you want to update the existing installation? (y/n): ".

(** The operator's answer counts as yes. *)
Definition confirms (answer : string) : bool := Str.is_yes (Str.lower answer).

(** The state a run leaves, with fresh operator input for the next run. *)
Definition next_run (w : World) (answers : list string) : World :=
  set_stdin w answers.

(** ** Example hosts *)

Module Hosts.

Definition LF : string := String "010"%char EmptyString.

(** A process layer on which every query succeeds. *)
Definition all_present (_ : list Command) (c : Command) : ProcOutcome :=
  if bool_decide (c = ["wsl"; "-l"; "-v"])
  then Exited 0 ("  NAME      STATE   VERSION" +:+ LF +:+ "* Ubuntu    Stopped 2" +:+ LF)
  else if bool_decide (c = ["wsl"; "-d"; "Ubuntu"; "bash"; "-ic"; "which claude"])
  then Exited 0 ("/usr/local/bin/claude" +:+ LF)
  else Exited 0 "".

(** Nothing is installed and every command fails. *)
Definition all_fail (_ : list Command) (_ : Command) : ProcOutcome :=
  Exited 1 "".

(** The version query of the virtualization layer never returns. *)
Definition wsl_hangs (_ : list Command) (c : Command) : ProcOutcome :=
  if bool_decide (c = ["wsl"; "--version"]) then Hangs else all_present [] c.

(** The locate query exits 0 and prints a bare line break; the version
    query fails. *)
Definition blank_which (_ : list Command) (c : Command) : ProcOutcome :=
  if bool_decide (c = ["wsl"; "-d"; "Ubuntu"; "bash"; "-ic"; "which claude"])
  then Exited 0 LF
  else if bool_decide (c = ["wsl"; "-d"; "Ubuntu"; "bash"; "-ic"; "claude --version"])
  then Exited 1 ""
  else all_present [] c.


Definition menu_keys : gset Key :=
  list_to_set
    (ancestors_or_self (BG_KEY ++ ["command"])
     ++ ancestors_or_self (FOLDER_KEY ++ ["command"])).

Definition make (admin : bool) (layer : list Command -> Command -> ProcOutcome)
    (keys : gset Key) (dir : option (gset string)) (answers : list string)
    : World :=
  {| IsUserAnAdmin := Some admin;
     version_info := (3, 11);
     platform_version := Some "10.0.19045";
     tk_available := false;
     respond := layer;
     issued := [];
     hkcr := keys;
     hkcr_writable := admin;
     c_scripts := dir;
     disk_writable := true;
     stdin := answers |}.

(** Everything installed, elevated. *)
Definition ready (answers : list string) : World :=
  make true all_present menu_keys (Some {[ Path.launcher_name ]}) answers.

(** Nothing installed, elevated, and no command succeeds. *)
Definition bare_failing : World := make true all_fail ∅ None [].

(** Nothing installed, not elevated. *)
Definition bare_denied : World := make false all_fail ∅ None [].

(** Everything installed, elevated, but [wsl --version] hangs. *)
Definition ready_wsl_hangs : World :=
  make true wsl_hangs menu_keys (Some {[ Path.launcher_name ]}) [].

Definition ready_blank_which : World :=
  make true blank_which menu_keys (Some {[ Path.launcher_name ]}) [].

(** Only the folder-background key is there: no sibling key, no launcher. *)
Definition background_key_only : World :=
  make true all_present (list_to_set (ancestors_or_self BG_KEY)) None [].


(** Elevated, the context menu absent. *)
Definition without_menu : World := make true all_present ∅ None [].

(** Everything installed, elevated, but nothing under C:/Scripts can be
    written or removed. *)
Definition ready_locked_disk (answers : list string) : World :=
  let w := ready answers in
  mkWorld (IsUserAnAdmin w) (version_info w) (platform_version w)
    (tk_available w) (respond w) (issued w) (hkcr w) (hkcr_writable w)
    (c_scripts w) false (stdin w).

End Hosts.

Definition status_args : Args := mkArgs false false true false false.
Definition uninstall_args : Args := mkArgs false true false false false.
Definition context_only_args : Args := mkArgs true false false false false.
Definition console_args : Args := mkArgs false false false false true.

(** ** The shape of an orchestration run

    A section of a run contributes some steps and either lets the run go
    on ([Ret true]), ends it with failure ([Ret false]) or ends it with an
    exception. *)

Definition Section_shape := list Event -> Res bool -> Prop.

Inductive wsl_shape : Section_shape :=
| wsl_probe_raises e :
    wsl_shape [Enter IsWslInstalled] (Raise e)
| wsl_present :
    wsl_shape [Enter IsWslInstalled; Leave IsWslInstalled true] (Ret true)
| wsl_install_fails :
    wsl_shape
      [Enter IsWslInstalled; Leave IsWslInstalled false;
       Enter InstallWsl; Leave InstallWsl false] (Ret false)
| wsl_no_answer :
    wsl_shape
      [Enter IsWslInstalled; Leave IsWslInstalled false;
       Enter InstallWsl; Leave InstallWsl true;
       Input restart_prompt None] (Raise EOFError)
| wsl_restart a :
    confirms a = true ->
    wsl_shape
      [Enter IsWslInstalled; Leave IsWslInstalled false;
       Enter InstallWsl; Leave InstallWsl true;
       Input restart_prompt (Some a)] (Ret false)
| wsl_installed a :
    confirms a = false ->
    wsl_shape
      [Enter IsWslInstalled; Leave IsWslInstalled false;
       Enter InstallWsl; Leave InstallWsl true;
       Input restart_prompt (Some a)] (Ret true).

(** A probe followed, when it is unsatisfied, by one installer. *)
Inductive probe_apply_shape (probe apply : Method) : Section_shape :=
| pa_present :
    probe_apply_shape probe apply [Enter probe; Leave probe true] (Ret true)
| pa_install r :
    probe_apply_shape probe apply
      [Enter probe; Leave probe false; Enter apply; Leave apply r] (Ret r).

Inductive context_menu_shape : Section_shape :=
| menu_install r :
    context_menu_shape
      [Enter IsInstalled; Leave IsInstalled false;
       Enter InstallContextMenu; Leave InstallContextMenu r] (Ret r)
| menu_no_answer :
    context_menu_shape
      [Enter IsInstalled; Leave IsInstalled true; Input update_prompt None]
      (Raise EOFError)
| menu_keep a :
    confirms a = false ->
    context_menu_shape
      [Enter IsInstalled; Leave IsInstalled true;
       Input update_prompt (Some a)] (Ret true)
| menu_update a removed installed :
    confirms a = true ->
    context_menu_shape
      [Enter IsInstalled; Leave IsInstalled true;
       Input update_prompt (Some a);
       Enter UninstallContextMenu; Leave UninstallContextMenu removed;
       Enter InstallContextMenu; Leave InstallContextMenu installed]
      (Ret true).

(** Sections run in order until one ends the run. *)
Inductive chain : list Section_shape -> list Event -> Res bool -> Prop :=
| chain_done : chain [] [] (Ret true)
| chain_stop (B : Section_shape) Bs s r :
    B s r -> r <> Ret true -> chain (B :: Bs) s r
| chain_next (B : Section_shape) Bs s s' r :
    B s (Ret true) -> chain Bs s' r -> chain (B :: Bs) (s ++ s') r.

Definition full_sections : list Section_shape :=
  [ wsl_shape;
    probe_apply_shape IsUbuntuInstalled InstallUbuntu;
    probe_apply_shape IsClaudeInstalled SetupUbuntuEnvironment;
    probe_apply_shape IsClaudeInstalled InstallClaudeCode;
    context_menu_shape ].

(** A run of [install_full]: refused at the prerequisite check, or the
    chain of its five sections. *)
Definition full_run_shape (log : list Event) (r : Res bool) : Prop :=
  (log = [] /\ r = Ret false) \/ chain full_sections log r.

(** ** Reasoning about computations *)

(** [wp m w Q]: running [m] from [w] ends in a result, a state and events
    that satisfy [Q]. *)
Definition wp {A} (m : M A) (w : World)
    (Q : Res A -> World -> list Event -> Prop) : Prop :=
  Q (result (m w)) (final (m w)) (events (m w)).

(** The call of a manager method that returns. *)
Definition called (m : Method) (r : Res bool) (evs : list Event) : Prop :=
  exists b, r = Ret b /\ steps evs = [Enter m; Leave m b].

(** The call of a manager method that returns or raises. *)
Definition called_or_raised (m : Method) (r : Res bool) (evs : list Event)
    : Prop :=
  called m r evs \/ exists e, r = Raise e /\ steps evs = [Enter m].

(** A computation that returns and takes no orchestration step. *)
Definition silent {A} (r : Res A) (evs : list Event) : Prop :=
  (exists a, r = Ret a) /\ steps evs = [].

(** A section of a run, seen through its steps. *)
Definition in_shape (B : Section_shape) (r : Res bool) (evs : list Event)
    : Prop :=
  B (steps evs) r.

(** The registry keys and the files are as before. *)
Definition same_store (w w' : World) : Prop :=
  hkcr w' = hkcr w /\ c_scripts w' = c_scripts w.

(** An operating-system call: none of its events is an orchestration
    step, and it raises nothing but an [OSError]. *)
Definition quiet {A} (m : M A) : Prop :=
  forall w,
    steps (events (m w)) = [] /\
    forall e, result (m w) = Raise e -> is_WindowsError e = true.

(** The commands of the probes, for use in statements. *)
Definition version_query : Command := ["wsl"; "--version"].
Definition list_query : Command := ["wsl"; "-l"; "-v"].
Definition locate_query : Command :=
  ["wsl"; "-d"; "Ubuntu"; "bash"; "-ic"; "which claude"].
Definition app_version_query : Command :=
  ["wsl"; "-d"; "Ubuntu"; "bash"; "-ic"; "claude --version"].

(** The process is elevated and the interpreter is recent enough. *)
Definition prerequisites_met (w : World) : bool :=
  match IsUserAnAdmin w with Some b => b | None => false end
  && negb (ClaudeInstaller.version_too_old (version_info w)).

(** Phase 1 of the application probe, as the code decides it. *)
Definition located (p : ProcOutcome) : bool :=
  match p with
  | Exited rc out => (rc =? 0)%Z && Str.truthy (Str.strip out)
  | _ => false
  end.

Definition completed (p : ProcOutcome) : bool :=
  match p with Exited _ _ => true | _ => false end.

Definition exited_zero (p : ProcOutcome) : bool :=
  match p with Exited rc _ => (rc =? 0)%Z | _ => false end.



(** What [main] answers for a mode that ended with [r]: an exception
    reaches the handler of [main]. *)
Definition exit_of (r : Res bool) : Res Z :=
  match r with
  | Ret b => Ret (exit_status b)
  | Raise _ => Ret 1%Z
  end.

(** A mode that was refused: it answers failure, leaves the host as it
    was, and did nothing but write to the console. *)
Definition refused (w : World) (o : Outcome bool) : Prop :=
  result o = Ret false /\ final o = w /\ forallb is_print (events o) = true.

(** A computation that only looked at the host: the registry keys and the
    files are as before and no event changes, or tries to change, the
    host. *)
Definition observed (w w' : World) (evs : list Event) : Prop :=
  same_store w w' /\ read_only evs = true.

(** The part of a log before the first occurrence of an event. *)
Fixpoint before (e : Event) (log : list Event) : list Event :=
  match log with
  | [] => []
  | x :: rest => if bool_decide (x = e) then [] else x :: before e rest
  end.

(** How often an event occurs in a log. *)
Definition occurrences (e : Event) (log : list Event) : nat :=
  count_occ Event_eq_dec log e.

(** A call that returned. *)
Definition returns_bool (r : Res bool) : Prop := exists b, r = Ret b.

(** ** Notions for the properties of the single functions *)

(** The probes a log enters, in order. *)
Definition probes_entered (log : list Event) : list Method :=
  omap (fun e => match e with
                 | Enter m => if is_probe m then Some m else None
                 | _ => None
                 end) log.

(** The probes of a complete walk of the chain, in order: the application
    probe is consulted twice, before the environment setup and before the
    application's installer. *)
Definition probe_walk : list Method :=
  [IsWslInstalled; IsUbuntuInstalled; IsClaudeInstalled; IsClaudeInstalled;
   IsInstalled].

(** Running commands one after the other with [check=True] inside one
    [try]: the commands that get started and whether all of them exited
    with code 0. Each command is answered by the process layer given the
    commands run before it; the first one that does not exit with code 0
    is the last one started. *)
Fixpoint run_checked (layer : list Command -> Command -> ProcOutcome)
    (history : list Command) (commands : list Command) : list Command * bool :=
  match commands with
  | [] => ([], true)
  | c :: rest =>
      if exited_zero (layer history c)
      then let (ran, ok) := run_checked layer (history ++ [c]) rest in
           (c :: ran, ok)
      else ([c], false)
  end.

(** The commands a computation started, in order. *)
Definition commands_run (evs : list Event) : list Command :=
  omap (fun e => match e with Run c _ => Some c | _ => None end) evs.

(** The commands of [setup_ubuntu_environment], in source order. *)
Definition setup_commands : list Command :=
  [ ["wsl"; "-d"; "Ubuntu"; "--"; "sudo"; "apt"; "update"; "-y"];
    ["wsl"; "-d"; "Ubuntu"; "--"; "sudo"; "apt"; "upgrade"; "-y"];
    ["wsl"; "-d"; "Ubuntu"; "--"; "sudo"; "apt"; "install"; "-y";
     "curl"; "wget"; "git"; "build-essential"];
    ["wsl"; "-d"; "Ubuntu"; "--"; "curl"; "-fsSL";
     "https://deb.nodesource.com/setup_18.x"; "|"; "sudo"; "-E"; "bash"; "-"];
    ["wsl"; "-d"; "Ubuntu"; "--"; "sudo"; "apt"; "install"; "-y"; "nodejs"];
    ["wsl"; "-d"; "Ubuntu"; "--"; "node"; "--version"];
    ["wsl"; "-d"; "Ubuntu"; "--"; "npm"; "--version"] ].

(** The commands of [install_claude_code], in source order. *)
Definition claude_install_commands : list Command :=
  [ ["wsl"; "-d"; "Ubuntu"; "--"; "npm"; "config"; "set"; "os"; "linux"];
    ["wsl"; "-d"; "Ubuntu"; "--"; "npm"; "install"; "-g";
     "@anthropic-ai/claude-code"; "--force"; "--no-os-check"];
    ["wsl"; "-d"; "Ubuntu"; "--"; "claude"; "--version"] ].

Definition wsl_install_command : Command := ["wsl"; "--install"; "--no-launch"].
Definition ubuntu_install_command : Command :=
  ["wsl"; "--install"; "-d"; "Ubuntu"; "--no-launch"].

(** An installer that runs [commands] with [check=True]: it returns
    whether all of them exited with code 0, has started exactly the
    commands up to the first that did not, and leaves everything else of
    the host as it was. *)
Definition checked_run (w : World) (commands : list Command) (o : Outcome bool)
    : Prop :=
  let (ran, ok) := run_checked (respond w) (issued w) commands in
  result o = Ret ok /\
  commands_run (events o) = ran /\
  final o = set_issued w (issued w ++ ran).

(** A mode run by [main]: the state and the events are the mode's, the exit
    status is taken from what the mode answers, and a mode that raises adds
    the error line. *)
Definition runs_mode {A} (o : Outcome Z) (mode : Outcome A) (status : Res Z)
    : Prop :=
  result o = status /\
  final o = final mode /\
  events o =
    events mode
    ++ match result mode with
       | Ret _ => []
       | Raise _ => [Printed "\nUnexpected error"]
       end.

(** The exit status after a mode whose answer is not looked at. *)
Definition status_exit {A} (r : Res A) : Res Z :=
  match r with Ret _ => Ret 0%Z | Raise _ => Ret 1%Z end.


(** ** The context menu in the registry and on disk *)

Module Menu.

(** The keys of the two menu entries. *)
Definition BG_COMMAND : Key := BG_KEY ++ ["command"].
Definition FOLDER_COMMAND : Key := FOLDER_KEY ++ ["command"].
Definition entry_keys : gset Key :=
  {[ BG_KEY; BG_COMMAND; FOLDER_KEY; FOLDER_COMMAND ]}.

(** The keys above the two menu entries. *)
Definition parent_keys : gset Key :=
  {[ ["Directory"]; ["Directory"; "Background"];
     ["Directory"; "Background"; "shell"]; ["Directory"; "shell"] ]}.

(** The entries of C:/Scripts; none when the directory does not exist. *)
Definition entries (w : World) : gset string := default ∅ (c_scripts w).

Definition launcher_present (w : World) : bool :=
  bool_decide (Path.launcher_name ∈ entries w).

(** [DeleteKey] goes through: the key is there, has no subkeys and the
    registry can be written. *)
Definition deletable (r : gset Key) (writable : bool) (k : Key) : bool :=
  bool_decide (k ∈ r) && negb (winreg.has_subkeys r k) && writable.

(** What one [try] block of [uninstall_context_menu] leaves of the
    registry: the second key is tried only when the first was deleted. *)
Definition delete_entry (writable : bool) (command key : Key) (r : gset Key)
    : gset Key :=
  if deletable r writable command
  then
    let r1 := r ∖ {[ command ]} in
    if deletable r1 writable key then r1 ∖ {[ key ]} else r1
  else r.

(** What the file part of [uninstall_context_menu] leaves of C:/Scripts:
    the launcher is deleted when it exists, then the directory is removed
    when it is empty. *)
Definition files_after_uninstall (writable : bool) (d : option (gset string))
    : option (gset string) :=
  match d with
  | None => None
  | Some d =>
      if bool_decide (Path.launcher_name ∈ d)
      then
        if writable
        then
          if bool_decide (d ∖ {[ Path.launcher_name ]} = ∅) then None
          else Some (d ∖ {[ Path.launcher_name ]})
        else Some d
      else if bool_decide (d = ∅) && writable then None else Some d
  end.

(** No key other than the entry's own two lies at or below a menu entry. *)
Definition no_foreign_subkeys (r : gset Key) (key : Key) : Prop :=
  set_Forall
    (fun k => key `prefix_of` k -> k = key \/ k = key ++ ["command"]) r.

(** Nothing of a menu entry is in the registry. *)
Definition entry_absent (r : gset Key) (key : Key) : Prop :=
  set_Forall (fun k => ~ key `prefix_of` k) r.

End Menu.

(** ** Further example hosts *)

Module Examples.

(** A process layer with a memory: a component is reported once its
    installer has been run, and every command succeeds. *)
Definition tools (h : list Command) (c : Command) : ProcOutcome :=
  if bool_decide (c = version_query)
  then Exited (if bool_decide (wsl_install_command ∈ h) then 0 else 1) ""
  else if bool_decide (c = list_query)
  then Exited 0 (if bool_decide (ubuntu_install_command ∈ h)
                 then "* Ubuntu    Stopped 2" else "")
  else if bool_decide (c = locate_query)
  then
    if bool_decide (["wsl"; "-d"; "Ubuntu"; "--"; "claude"; "--version"] ∈ h)
    then Exited 0 "/usr/local/bin/claude" else Exited 1 ""
  else if bool_decide (c = app_version_query)
  then
    if bool_decide (["wsl"; "-d"; "Ubuntu"; "--"; "claude"; "--version"] ∈ h)
    then Exited 0 "1.0" else Exited 127 ""
  else Exited 0 "".

(** Elevated, nothing installed, the installers work. *)
Definition fresh (answers : list string) : World :=
  Hosts.make true tools ∅ None answers.

End Examples.

(** ** Two runs in a row *)

(** What the probes of the three external components answer after the
    commands [h], as the code decides it from the process layer. *)
Definition wsl_found (layer : list Command -> Command -> ProcOutcome)
    (h : list Command) : bool :=
  exited_zero (layer h version_query).







(** A later state of the same host: the process, the interpreter and the
    process layer are the same, and commands have been added to the
    record of the commands run. *)
Definition advances (w w1 : World) : Prop :=
  IsUserAnAdmin w1 = IsUserAnAdmin w /\
  version_info w1 = version_info w /\
  respond w1 = respond w /\
  exists t, issued w1 = issued w ++ t.

(** A state that differs only by commands run since. *)
Definition ran_only (w w1 : World) : Prop :=
  exists t, w1 = set_issued w (issued w ++ t).



(** * Properties *)

(** ** Text *)

Module StrFacts.
Import Str.

#[local] Arguments String.append !_ _ / : simpl nomatch.

Lemma isspace_lower_char c : isspace (lower_char c) = isspace c.
Proof. destruct c as [[] [] [] [] [] [] [] []]; reflexivity. Qed.

Lemma append_empty_r s : s +:+ EmptyString = s.
Proof. induction s as [|c s IH]; simpl; [reflexivity | now rewrite IH]. Qed.

Lemma append_assoc a b c : (a +:+ b) +:+ c = a +:+ (b +:+ c).
Proof. induction a as [|x a IH]; simpl; [reflexivity | now rewrite IH]. Qed.

Lemma startswith_spec p s :
  startswith p s = true <-> exists post, s = p +:+ post.
Proof.
  revert s; induction p as [|a p IH]; intros s; simpl.
  - split; [intros _; now exists s | reflexivity].
  - destruct s as [|b s].
    + split; [discriminate | intros [post H]; discriminate].
    + rewrite andb_true_iff, Ascii.eqb_eq, IH. split.
      * intros [-> [post ->]]. now exists post.
      * intros [post H]. injection H as -> ->. split; [reflexivity | now exists post].
Qed.

Lemma contains_spec p s :
  contains p s = true <-> exists pre post, s = pre +:+ p +:+ post.
Proof.
  induction s as [|c s IH]; simpl.
  - rewrite startswith_spec. split.
    + intros [post H]. exists EmptyString, post. exact H.
    + intros [pre [post H]]. destruct pre; [now exists post | discriminate].
  - rewrite orb_true_iff, IH, startswith_spec. split.
    + intros [[post H] | [pre [post H]]].
      * exists EmptyString, post. exact H.
      * exists (String c pre), post. simpl. now rewrite H.
    + intros [pre [post H]]. destruct pre as [|d pre]; simpl in H.
      * left. now exists post.
      * right. injection H as _ H. now exists pre, post.
Qed.

Lemma lower_app a b : lower (a +:+ b) = lower a +:+ lower b.
Proof. induction a as [|x a IH]; simpl; [reflexivity | now rewrite IH]. Qed.

Lemma lower_split s a b :
  lower s = a +:+ b ->
  exists a' b', s = a' +:+ b' /\ lower a' = a /\ lower b' = b.
Proof.
  revert s; induction a as [|x a IH]; intros s H; simpl in H.
  - exists EmptyString, s. auto.
  - destruct s as [|c s]; [discriminate |]. simpl in H. injection H as Hx H.
    destruct (IH _ H) as (a' & b' & -> & Ha & Hb).
    exists (String c a'), b'. simpl. now rewrite Hx, Ha.
Qed.

(** Case-insensitive search is search in the lower-cased text. *)
Lemma contains_lower_iff name s :
  contains (lower name) (lower s) = true <-> appears_ci name s.
Proof.
  rewrite contains_spec. unfold appears_ci. split.
  - intros (pre & post & H).
    destruct (lower_split _ _ _ H) as (a & rest & -> & _ & Hrest).
    destruct (lower_split _ _ _ Hrest) as (mid & b & -> & Hmid & _).
    now exists a, mid, b.
  - intros (pre & mid & post & -> & Hmid).
    exists (lower pre), (lower post). now rewrite !lower_app, Hmid.
Qed.

Lemma startswith_empty p : startswith p EmptyString = true -> p = EmptyString.
Proof. destruct p; [reflexivity | discriminate]. Qed.

Lemma starts_solid_head p c s :
  starts_solid p = true -> isspace c = true -> startswith p (String c s) = false.
Proof.
  destruct p as [|a p]; simpl; [discriminate |]. intros Ha Hc.
  destruct (Ascii.eqb_spec a c) as [-> |]; [| reflexivity].
  now rewrite Hc in Ha.
Qed.

Lemma contains_lstrip p s :
  starts_solid p = true -> contains p (lstrip s) = contains p s.
Proof.
  intros Hp. induction s as [|c s IH]; simpl; [reflexivity |].
  destruct (isspace c) eqn:Hc; [| reflexivity].
  now rewrite IH, starts_solid_head.
Qed.

Lemma ends_solid_nonempty p : ends_solid p = true -> p <> EmptyString.
Proof. now destruct p. Qed.

Lemma startswith_rstrip p s :
  ends_solid p = true -> startswith p (rstrip s) = startswith p s.
Proof.
  revert p; induction s as [|c s IH]; intros p Hp; [reflexivity |].
  destruct p as [|d p]; [discriminate |].
  destruct p as [|d' p].
  - simpl in Hp. simpl. destruct (rstrip s); simpl.
    + destruct (isspace c) eqn:Hc; simpl.
      * destruct (Ascii.eqb_spec d c) as [-> |]; [| reflexivity].
        now rewrite Hc in Hp.
      * now rewrite andb_true_r.
    + now rewrite andb_true_r.
  - assert (Hp' : ends_solid (String d' p) = true) by exact Hp.
    specialize (IH _ Hp').
    change (startswith (String d (String d' p)) (String c s))
      with (Ascii.eqb d c && startswith (String d' p) s).
    rewrite <- IH. simpl rstrip.
    destruct (rstrip s) as [|x r]; [| reflexivity].
    destruct (isspace c); simpl; now rewrite ?andb_false_r.
Qed.

Lemma contains_rstrip p s :
  ends_solid p = true -> contains p (rstrip s) = contains p s.
Proof.
  intros Hp. induction s as [|c s IH]; [reflexivity |].
  simpl contains. rewrite <- IH, <- (startswith_rstrip p (String c s) Hp).
  simpl rstrip. destruct (rstrip s) as [|x r] eqn:Hr; [| reflexivity].
  destruct (isspace c); simpl.
  - destruct p; [discriminate | reflexivity].
  - destruct p; [discriminate |]. now rewrite orb_false_r.
Qed.

Lemma contains_strip p s :
  starts_solid p = true -> ends_solid p = true ->
  contains p (strip s) = contains p s.
Proof.
  intros H1 H2. unfold strip. now rewrite contains_rstrip, contains_lstrip.
Qed.

Lemma lstrip_lower s : lstrip (lower s) = lower (lstrip s).
Proof.
  induction s as [|c s IH]; simpl; [reflexivity |].
  rewrite isspace_lower_char. now destruct (isspace c).
Qed.

Lemma rstrip_lower s : rstrip (lower s) = lower (rstrip s).
Proof.
  induction s as [|c s IH]; simpl; [reflexivity |].
  rewrite IH, isspace_lower_char.
  destruct (rstrip s); simpl; [now destruct (isspace c) | reflexivity].
Qed.

Lemma strip_lower s : strip (lower s) = lower (strip s).
Proof. unfold strip. now rewrite lstrip_lower, rstrip_lower. Qed.

(** Stripping surrounding white space does not change whether a
    distribution name occurs. *)
Lemma contains_lower_strip name s :
  starts_solid (lower name) = true -> ends_solid (lower name) = true ->
  contains (lower name) (lower (strip s)) = true <-> appears_ci name s.
Proof.
  intros H1 H2.
  now rewrite <- strip_lower, contains_strip, contains_lower_iff.
Qed.

End StrFacts.

(** ** The monad *)

Lemma wp_ret {A} (a : A) w Q : Q (Ret a) w [] -> wp (ret a) w Q.
Proof. exact (fun H => H). Qed.

Lemma wp_emit e w Q : Q (Ret tt) w [e] -> wp (emit e) w Q.
Proof. exact (fun H => H). Qed.

Lemma wp_bind {A B} (m : M A) (f : A -> M B) w Q :
  wp m w (fun r w1 e1 =>
            match r with
            | Ret a => wp (f a) w1 (fun r2 w2 e2 => Q r2 w2 (e1 ++ e2))
            | Raise e => Q (Raise e) w1 e1
            end) ->
  wp (bind m f) w Q.
Proof. unfold wp, bind. now destruct (result (m w)). Qed.

Lemma wp_try {A} (body : M A) handler w Q :
  wp body w (fun r w1 e1 =>
               match r with
               | Ret a => Q (Ret a) w1 e1
               | Raise e =>
                   match handler e with
                   | Some h => wp h w1 (fun r2 w2 e2 => Q r2 w2 (e1 ++ e2))
                   | None => Q (Raise e) w1 e1
                   end
               end) ->
  wp (try_except body handler) w Q.
Proof.
  unfold wp, try_except. destruct (result (body w)) eqn:Hr.
  - now rewrite Hr.
  - destruct (handler e); [trivial | now rewrite Hr].
Qed.

Lemma wp_input prompt w Q :
  (stdin w = [] -> Q (Raise EOFError) w [Input prompt None]) ->
  (forall a rest, stdin w = a :: rest ->
     Q (Ret a) (set_stdin w rest) [Input prompt (Some a)]) ->
  wp (input prompt) w Q.
Proof. unfold wp, input. destruct (stdin w); simpl; auto. Qed.

Lemma wp_run_command c chk w Q :
  let w' := set_issued w (issued w ++ [c]) in
  (forall rc out, respond w (issued w) c = Exited rc out ->
     if chk && negb (rc =? 0)%Z
     then Q (Raise CalledProcessError) w' [Run c chk]
     else Q (Ret {| returncode := rc; stdout := out |}) w' [Run c chk]) ->
  (respond w (issued w) c = Missing ->
     Q (Raise FileNotFoundError) w' [Run c chk]) ->
  (respond w (issued w) c = Hangs ->
     Q (Raise TimeoutExpired) w' [Run c chk]) ->
  wp (run_command c chk) w Q.
Proof.
  intros w' H1 H2 H3. unfold wp, run_command.
  destruct (respond w (issued w) c) as [rc out| |]; simpl; auto.
  specialize (H1 rc out eq_refl). now destruct (chk && negb (rc =? 0)%Z).
Qed.

(** Using what is known of a sub-computation. *)
Lemma wp_of_summary {A} (m : M A) w (P : Res A -> list Event -> Prop) Q :
  P (result (m w)) (events (m w)) ->
  (forall r w1 e1, P r e1 -> Q r w1 e1) ->
  wp m w Q.
Proof. unfold wp. auto. Qed.

Lemma steps_app l1 l2 : steps (l1 ++ l2) = steps l1 ++ steps l2.
Proof. apply List.filter_app. Qed.

Lemma steps_idem l : steps (steps l) = steps l.
Proof.
  unfold steps. induction l as [|e l IH]; [reflexivity |].
  simpl. destruct (is_step e) eqn:He; simpl; rewrite ?He, IH; reflexivity.
Qed.

Lemma elem_of_steps e l : e ∈ steps l <-> e ∈ l /\ is_step e = true.
Proof.
  unfold steps. rewrite !list_elem_of_In, List.filter_In. reflexivity.
Qed.

Lemma wp_quiet {A} (m : M A) w Q :
  quiet m ->
  (forall a w1 e1, steps e1 = [] -> Q (Ret a) w1 e1) ->
  (forall e w1 e1, steps e1 = [] -> is_WindowsError e = true ->
     Q (Raise e) w1 e1) ->
  wp m w Q.
Proof.
  unfold wp, quiet. intros H HR HE. destruct (H w) as [Hs He].
  destruct (result (m w)); auto.
Qed.

Ltac quiet_cases :=
  repeat match goal with
    | |- context [if ?b then _ else _] => destruct b
    | |- context [match ?x with Some _ => _ | None => _ end] => destruct x
    end;
  cbn; (split; [reflexivity | intros ? [=]; subst; reflexivity]).

Lemma quiet_OpenKey k sub : quiet (winreg.OpenKey k sub).
Proof. intros w. unfold winreg.OpenKey. quiet_cases. Qed.

Lemma quiet_CreateKey k sub : quiet (winreg.CreateKey k sub).
Proof. intros w. unfold winreg.CreateKey. quiet_cases. Qed.

Lemma quiet_SetValue k name : quiet (winreg.SetValue k name).
Proof. intros w. unfold winreg.SetValue. quiet_cases. Qed.

Lemma quiet_DeleteKey k sub : quiet (winreg.DeleteKey k sub).
Proof. intros w. unfold winreg.DeleteKey. quiet_cases. Qed.

Lemma quiet_mkdir : quiet Path.mkdir_exist_ok.
Proof. intros w. unfold Path.mkdir_exist_ok. quiet_cases. Qed.

Lemma quiet_write_launcher : quiet Path.write_launcher.
Proof. intros w. unfold Path.write_launcher. quiet_cases. Qed.

Lemma quiet_unlink_launcher : quiet Path.unlink_launcher.
Proof. intros w. unfold Path.unlink_launcher. quiet_cases. Qed.

Lemma quiet_rmdir : quiet Path.rmdir.
Proof. intros w. unfold Path.rmdir. quiet_cases. Qed.

Lemma quiet_launcher_exists : quiet Path.launcher_exists.
Proof. intros w. unfold Path.launcher_exists. quiet_cases. Qed.

Lemma quiet_exists_and_empty : quiet Path.exists_and_empty.
Proof. intros w. unfold Path.exists_and_empty. quiet_cases. Qed.

Create HintDb quiet_db.
#[global] Hint Resolve quiet_OpenKey quiet_CreateKey quiet_SetValue
  quiet_DeleteKey quiet_mkdir quiet_write_launcher quiet_unlink_launcher
  quiet_rmdir quiet_launcher_exists quiet_exists_and_empty : quiet_db.

Ltac wp_quiet_step :=
  apply wp_quiet; [ auto with quiet_db | intros ? ? ? ? | intros ? ? ? ? ? ].

(** Symbolic execution of one computation step. *)
Ltac wp_step :=
  lazymatch goal with
  | |- wp (bind _ _) _ _ => apply wp_bind
  | |- wp (ret _) _ _ => apply wp_ret
  | |- wp (emit _) _ _ => apply wp_emit
  | |- wp (colored_print _) _ _ => apply wp_emit
  | |- wp (try_except _ _) _ _ => apply wp_try
  | |- wp (method _ _) _ _ => unfold method
  | |- wp (when ?b _) _ _ => unfold when
  | |- wp (winreg.CloseKey _) _ _ => apply wp_ret
  | |- wp (winreg.OpenKey _ _) _ _ => wp_quiet_step
  | |- wp (winreg.CreateKey _ _) _ _ => wp_quiet_step
  | |- wp (winreg.SetValue _ _) _ _ => wp_quiet_step
  | |- wp (winreg.DeleteKey _ _) _ _ => wp_quiet_step
  | |- wp Path.mkdir_exist_ok _ _ => wp_quiet_step
  | |- wp Path.write_launcher _ _ => wp_quiet_step
  | |- wp Path.unlink_launcher _ _ => wp_quiet_step
  | |- wp Path.rmdir _ _ => wp_quiet_step
  | |- wp Path.launcher_exists _ _ => wp_quiet_step
  | |- wp Path.exists_and_empty _ _ => wp_quiet_step
  | |- wp (input _) _ _ =>
      apply wp_input; [intros ? | intros ? ? ?]
  | |- wp (run_command _ ?chk) _ _ =>
      apply wp_run_command;
      [ let rc := fresh "rc" in
        let out := fresh "out" in
        intros rc out ?;
        lazymatch chk with
        | false => cbn [andb]
        | _ => destruct (Z.eqb_spec rc 0); cbn [andb negb]
        end
      | intros ? | intros ? ]
  | |- wp (if ?c then _ else _) _ _ =>
      lazymatch c with
      | negb true => cbn [negb]
      | negb false => cbn [negb]
      | true => cbv iota
      | false => cbv iota
      | negb ?b =>
          first [ is_var b; destruct b; cbn [negb]
                | destruct c eqn:? ]
      | _ => first [ is_var c; destruct c | destruct c eqn:? ]
      end
  | |- wp (let x := _ in _) _ _ => cbv zeta
  | |- match any_exception _ _ with _ => _ end =>
      unfold any_exception at 1; cbv beta iota
  | |- match windows_error _ ?e with _ => _ end =>
      unfold windows_error at 1;
      first [ is_var e;
              first [ match goal with
                      | H : is_WindowsError e = true |- _ => rewrite H
                      end
                    | destruct (is_WindowsError e) ]
            | cbn [is_WindowsError] ];
      cbv beta iota
  | |- match file_not_found _ ?e with _ => _ end =>
      unfold file_not_found at 1; destruct e; cbv beta iota
  | |- match Ret _ with _ => _ end => cbv beta iota
  | |- match Raise _ with _ => _ end => cbv beta iota
  end.

(** Membership in a list built from conses and appends. *)
Ltac mem_norm :=
  repeat first
    [ rewrite elem_of_app | rewrite elem_of_cons | rewrite elem_of_nil ].

(** Membership of a call event in a concrete log, by evaluation. Not for
    prompts: comparing two unknown answers does not evaluate. *)
Ltac decide_mem :=
  lazymatch goal with
  | |- _ ∈ _ => apply (bool_decide_unpack _); vm_compute; exact I
  | |- _ ∉ _ => apply (bool_decide_eq_false_1 _); vm_compute; reflexivity
  | |- ~ (_ ∈ _) => apply (bool_decide_eq_false_1 _); vm_compute; reflexivity
  end.

(** Case analysis of a membership hypothesis in a concrete log. *)
Ltac mem_hyp H :=
  repeat (apply elem_of_cons in H as [H|H]; [try discriminate H |]);
  try (apply elem_of_nil in H; destruct H).

Ltac mem_goal :=
  solve [ repeat first [ apply list_elem_of_here | apply list_elem_of_further ] ].


(** A leaf of the execution: the steps of a concrete event list. *)
Ltac steps_norm :=
  rewrite ?steps_app;
  repeat match goal with
    | H : steps ?e = _ |- context [steps ?e] => rewrite H
    end;
  cbn [steps List.filter is_step app].

(** ** The manager methods, as the orchestrator sees them *)

Module Calls.
Import WSLManager ClaudeCodeManager ContextMenuManager.

Ltac returns :=
  unfold called; eexists; split; [reflexivity | steps_norm; reflexivity].

Ltac by_execution := repeat wp_step; try returns.

Lemma is_wsl_installed_called w :
  called_or_raised IsWslInstalled
    (result (is_wsl_installed w)) (events (is_wsl_installed w)).
Proof.
  change (wp is_wsl_installed w
            (fun r _ e => called_or_raised IsWslInstalled r e)).
  unfold is_wsl_installed. repeat wp_step;
    first [ left; returns
          | right; eexists; split; [reflexivity | steps_norm; reflexivity] ].
Qed.

Lemma is_ubuntu_installed_called w :
  called IsUbuntuInstalled
    (result (is_ubuntu_installed w)) (events (is_ubuntu_installed w)).
Proof.
  change (wp is_ubuntu_installed w
            (fun r _ e => called IsUbuntuInstalled r e)).
  unfold is_ubuntu_installed. by_execution.
Qed.

Lemma is_claude_installed_called w :
  called IsClaudeInstalled
    (result (is_claude_installed w)) (events (is_claude_installed w)).
Proof.
  change (wp is_claude_installed w
            (fun r _ e => called IsClaudeInstalled r e)).
  unfold is_claude_installed. by_execution.
Qed.

Lemma is_installed_called w :
  called IsInstalled (result (is_installed w)) (events (is_installed w)).
Proof.
  change (wp is_installed w (fun r _ e => called IsInstalled r e)).
  unfold is_installed. by_execution.
Qed.

Lemma install_wsl_called w :
  called InstallWsl (result (install_wsl w)) (events (install_wsl w)).
Proof.
  change (wp install_wsl w (fun r _ e => called InstallWsl r e)).
  unfold install_wsl. by_execution.
Qed.

Lemma install_ubuntu_called w :
  called InstallUbuntu (result (install_ubuntu w)) (events (install_ubuntu w)).
Proof.
  change (wp install_ubuntu w (fun r _ e => called InstallUbuntu r e)).
  unfold install_ubuntu. by_execution.
Qed.

Lemma setup_ubuntu_environment_called w :
  called SetupUbuntuEnvironment
    (result (setup_ubuntu_environment w))
    (events (setup_ubuntu_environment w)).
Proof.
  change (wp setup_ubuntu_environment w
            (fun r _ e => called SetupUbuntuEnvironment r e)).
  unfold setup_ubuntu_environment. by_execution.
Qed.

Lemma install_claude_code_called w :
  called InstallClaudeCode
    (result (install_claude_code w)) (events (install_claude_code w)).
Proof.
  change (wp install_claude_code w
            (fun r _ e => called InstallClaudeCode r e)).
  unfold install_claude_code. by_execution.
Qed.

Lemma create_launcher_script_silent w :
  silent (result (create_launcher_script w))
    (events (create_launcher_script w)).
Proof.
  change (wp create_launcher_script w (fun r _ e => silent r e)).
  unfold create_launcher_script.
  repeat wp_step; (split; [eexists; reflexivity | steps_norm; reflexivity]).
Qed.

Lemma install_context_menu_called w :
  called InstallContextMenu
    (result (install_context_menu w)) (events (install_context_menu w)).
Proof.
  change (wp install_context_menu w
            (fun r _ e => called InstallContextMenu r e)).
  unfold install_context_menu.
  repeat first
    [ wp_step
    | lazymatch goal with
      | |- wp create_launcher_script _ _ =>
          eapply wp_of_summary;
          [ apply create_launcher_script_silent
          | intros ? ? ? [[? ->] ?] ]
      end ];
    returns.
Qed.

Lemma uninstall_context_menu_called w :
  called UninstallContextMenu
    (result (uninstall_context_menu w)) (events (uninstall_context_menu w)).
Proof.
  change (wp uninstall_context_menu w
            (fun r _ e => called UninstallContextMenu r e)).
  unfold uninstall_context_menu. by_execution.
Qed.

End Calls.

(** ** The sections of a full installation *)

Module Orchestration.
Import WSLManager ClaudeCodeManager ContextMenuManager ClaudeInstaller.

Ltac use_call L :=
  eapply wp_of_summary; [ apply L | intros ? ? ? (? & -> & ?) ].

Ltac wp_call :=
  lazymatch goal with
  | |- wp is_wsl_installed _ _ =>
      eapply wp_of_summary;
      [ apply Calls.is_wsl_installed_called
      | intros ? ? ? [(? & -> & ?) | (? & -> & ?)] ]
  | |- wp is_ubuntu_installed _ _ => use_call Calls.is_ubuntu_installed_called
  | |- wp is_claude_installed _ _ => use_call Calls.is_claude_installed_called
  | |- wp is_installed _ _ => use_call Calls.is_installed_called
  | |- wp install_wsl _ _ => use_call Calls.install_wsl_called
  | |- wp install_ubuntu _ _ => use_call Calls.install_ubuntu_called
  | |- wp setup_ubuntu_environment _ _ =>
      use_call Calls.setup_ubuntu_environment_called
  | |- wp install_claude_code _ _ => use_call Calls.install_claude_code_called
  | |- wp install_context_menu _ _ =>
      use_call Calls.install_context_menu_called
  | |- wp uninstall_context_menu _ _ =>
      use_call Calls.uninstall_context_menu_called
  end.

Ltac run := repeat first [ wp_step | wp_call ].

Ltac in_shape_leaf :=
  unfold in_shape; steps_norm;
  first [ econstructor; first [ eassumption | reflexivity ]
        | econstructor ].

Lemma wp_is_admin w Q :
  Q (Ret (match IsUserAnAdmin w with Some b => b | None => false end)) w [] ->
  wp is_admin w Q.
Proof. exact (fun H => H). Qed.

Lemma wp_read {A} (f : World -> A) w Q :
  Q (Ret (f w)) w [] -> wp (fun w0 => ret (f w0) w0) w Q.
Proof. exact (fun H => H). Qed.

Lemma wp_show_windows_version w Q :
  (forall line, Q (Ret tt) w [Printed line]) -> wp show_windows_version w Q.
Proof.
  intros H. unfold wp, show_windows_version.
  destruct (platform_version w); apply H.
Qed.

Ltac wp_prereq :=
  lazymatch goal with
  | |- wp is_admin _ _ => apply wp_is_admin
  | |- wp (fun w0 => ret (version_too_old (version_info w0)) w0) _ _ =>
      apply (wp_read (fun w0 => version_too_old (version_info w0)))
  | |- wp show_windows_version _ _ =>
      apply wp_show_windows_version; intros ?
  end.

Lemma check_prerequisites_silent w :
  silent (result (check_prerequisites w)) (events (check_prerequisites w)).
Proof.
  change (wp check_prerequisites w (fun r _ e => silent r e)).
  unfold check_prerequisites.
  repeat first [ wp_step | wp_prereq ];
    (split; [eexists; reflexivity | reflexivity]).
Qed.

Lemma wsl_section_shape w :
  in_shape wsl_shape (result (wsl_section w)) (events (wsl_section w)).
Proof.
  change (wp wsl_section w (fun r _ e => in_shape wsl_shape r e)).
  unfold wsl_section. run; in_shape_leaf.
Qed.

Lemma ubuntu_section_shape w :
  in_shape (probe_apply_shape IsUbuntuInstalled InstallUbuntu)
    (result (ubuntu_section w)) (events (ubuntu_section w)).
Proof.
  change (wp ubuntu_section w
            (fun r _ e =>
               in_shape (probe_apply_shape IsUbuntuInstalled InstallUbuntu) r e)).
  unfold ubuntu_section. run; in_shape_leaf.
Qed.

Lemma environment_section_shape w :
  in_shape (probe_apply_shape IsClaudeInstalled SetupUbuntuEnvironment)
    (result (environment_section w)) (events (environment_section w)).
Proof.
  change (wp environment_section w
            (fun r _ e =>
               in_shape
                 (probe_apply_shape IsClaudeInstalled SetupUbuntuEnvironment)
                 r e)).
  unfold environment_section. run; in_shape_leaf.
Qed.

Lemma claude_section_shape w :
  in_shape (probe_apply_shape IsClaudeInstalled InstallClaudeCode)
    (result (claude_section w)) (events (claude_section w)).
Proof.
  change (wp claude_section w
            (fun r _ e =>
               in_shape
                 (probe_apply_shape IsClaudeInstalled InstallClaudeCode) r e)).
  unfold claude_section. run; in_shape_leaf.
Qed.

Lemma context_menu_section_shape w :
  in_shape context_menu_shape
    (result (context_menu_section w)) (events (context_menu_section w)).
Proof.
  change (wp context_menu_section w
            (fun r _ e => in_shape context_menu_shape r e)).
  unfold context_menu_section. run; in_shape_leaf.
Qed.

Lemma chain_last (B : Section_shape) s :
  B s (Ret true) -> chain [B] s (Ret true).
Proof.
  intros H. rewrite <- (app_nil_r s).
  eapply chain_next; [exact H | constructor].
Qed.

Ltac wp_section :=
  lazymatch goal with
  | |- wp check_prerequisites _ _ =>
      eapply wp_of_summary;
      [ apply check_prerequisites_silent | intros ? ? ? [[? ->] ?] ]
  | |- wp wsl_section _ _ =>
      eapply wp_of_summary;
      [ apply wsl_section_shape | intros [[|]|?] ? ? ? ]
  | |- wp ubuntu_section _ _ =>
      eapply wp_of_summary;
      [ apply ubuntu_section_shape | intros [[|]|?] ? ? ? ]
  | |- wp environment_section _ _ =>
      eapply wp_of_summary;
      [ apply environment_section_shape | intros [[|]|?] ? ? ? ]
  | |- wp claude_section _ _ =>
      eapply wp_of_summary;
      [ apply claude_section_shape | intros [[|]|?] ? ? ? ]
  | |- wp context_menu_section _ _ =>
      eapply wp_of_summary;
      [ apply context_menu_section_shape | intros [[|]|?] ? ? ? ]
  | |- wp show_success_message _ _ => unfold show_success_message
  end.

Ltac chain_leaf :=
  unfold in_shape in *; steps_norm; rewrite ?app_nil_r;
  first
    [ left; split; reflexivity
    | right; unfold full_sections;
      repeat first
        [ eapply chain_stop; [ eassumption | discriminate ]
        | eapply chain_last; eassumption
        | eapply chain_next; [ eassumption | ] ] ].

(** Every run of [install_full] is refused at the prerequisite check or
    walks the chain of its five sections. *)
Lemma install_full_shape w :
  full_run_shape (call_log (install_full w)) (result (install_full w)).
Proof.
  change (wp install_full w (fun r _ e => full_run_shape (steps e) r)).
  unfold install_full.
  repeat first [ wp_step | wp_section ]; chain_leaf.
Qed.

End Orchestration.

(** ** The probes *)

Module Probes.
Import WSLManager ClaudeCodeManager ContextMenuManager.

Ltac known_responses :=
  cbn [returncode stdout] in *;
  repeat match goal with
    | H : respond _ _ _ = _ |- _ =>
        cbn [respond issued set_issued] in H; rewrite H; clear H
    end;
  cbn [located completed exited_zero andb orb negb];
  repeat match goal with
    | H : _ = true |- _ => rewrite H; clear H
    | H : _ = false |- _ => rewrite H; clear H
    end;
  cbn [andb orb negb app].

Lemma is_ubuntu_installed_run w :
  let o := is_ubuntu_installed w in
  let b := match respond w (issued w) list_query with
           | Exited rc out =>
               (rc =? 0)%Z
               && Str.contains "ubuntu"
                    (Str.lower (Str.strip (Str.remove_char Str.NUL out)))
           | _ => false
           end in
  result o = Ret b /\
  events o =
    [Enter IsUbuntuInstalled; Run list_query false; Leave IsUbuntuInstalled b].
Proof.
  intros o b. unfold o, b.
  change (wp is_ubuntu_installed w
            (fun r _ e =>
               let b := match respond w (issued w) list_query with
                        | Exited rc out =>
                            (rc =? 0)%Z
                            && Str.contains "ubuntu"
                                 (Str.lower
                                    (Str.strip (Str.remove_char Str.NUL out)))
                        | _ => false
                        end in
               r = Ret b /\
               e = [Enter IsUbuntuInstalled; Run list_query false;
                    Leave IsUbuntuInstalled b])).
  unfold is_ubuntu_installed. fold list_query.
  repeat wp_step; known_responses; split; reflexivity.
Qed.

Lemma is_claude_installed_run w :
  let o := is_claude_installed w in
  let phase1 := respond w (issued w) locate_query in
  let phase2 := respond w (issued w ++ [locate_query]) app_version_query in
  let second := completed phase1 && negb (located phase1) in
  let b := located phase1 || (completed phase1 && exited_zero phase2) in
  result o = Ret b /\
  events o =
    [Enter IsClaudeInstalled; Run locate_query false]
    ++ (if second then [Run app_version_query false] else [])
    ++ [Leave IsClaudeInstalled b].
Proof.
  intros o phase1 phase2 second b. unfold o, b, second, phase2, phase1.
  change (wp is_claude_installed w
            (fun r _ e =>
               let phase1 := respond w (issued w) locate_query in
               let phase2 :=
                 respond w (issued w ++ [locate_query]) app_version_query in
               let second := completed phase1 && negb (located phase1) in
               let b :=
                 located phase1 || (completed phase1 && exited_zero phase2) in
               r = Ret b /\
               e = [Enter IsClaudeInstalled; Run locate_query false]
                   ++ (if second then [Run app_version_query false] else [])
                   ++ [Leave IsClaudeInstalled b])).
  unfold is_claude_installed. fold locate_query app_version_query.
  repeat wp_step; known_responses; split; reflexivity.
Qed.

Lemma background_key_path :
  subkey HKEY_CLASSES_ROOT "Directory\Background\shell\OpenInClaude" = BG_KEY.
Proof. vm_compute. reflexivity. Qed.

Lemma wp_OpenKey k sub w Q :
  (subkey k sub ∈ hkcr w ->
   Q (Ret (subkey k sub)) w [RegOpenKey (subkey k sub)]) ->
  (subkey k sub ∉ hkcr w ->
   Q (Raise FileNotFoundError) w [RegOpenKey (subkey k sub)]) ->
  wp (winreg.OpenKey k sub) w Q.
Proof.
  intros H1 H2. unfold wp, winreg.OpenKey.
  destruct (bool_decide (subkey k sub ∈ hkcr w)) eqn:Hk; cbn.
  - apply H1. now apply bool_decide_eq_true in Hk.
  - apply H2. now apply bool_decide_eq_false in Hk.
Qed.

Lemma is_installed_run w :
  let o := is_installed w in
  let b := bool_decide (BG_KEY ∈ hkcr w) in
  result o = Ret b /\
  final o = w /\
  events o = [Enter IsInstalled; RegOpenKey BG_KEY; Leave IsInstalled b].
Proof.
  intros o b. unfold o, b.
  change (wp is_installed w
            (fun r w1 e =>
               let b := bool_decide (BG_KEY ∈ hkcr w) in
               r = Ret b /\ w1 = w /\
               e = [Enter IsInstalled; RegOpenKey BG_KEY; Leave IsInstalled b])).
  unfold is_installed. do 6 wp_step.
  apply wp_OpenKey; rewrite background_key_path; intros Hk.
  - repeat wp_step. cbv zeta. now rewrite bool_decide_eq_true_2.
  - repeat wp_step. cbv zeta. now rewrite bool_decide_eq_false_2.
Qed.

End Probes.

(** C6. The GuestDistribution probe always returns; it answers satisfied
    exactly when the listing command exits with code 0 and the
    distribution name occurs, in any letter case, in the listing with its
    NUL characters removed. A non-zero exit, a missing tool and a command
    that does not return all give unsatisfied. *)
Theorem guest_distribution_probe (w : World) :
  let listing := respond w (issued w) list_query in
  exists b,
    result (WSLManager.is_ubuntu_installed w) = Ret b /\
    (b = true <->
     exists out,
       listing = Exited 0 out /\
       Str.appears_ci "Ubuntu" (Str.remove_char Str.NUL out)) /\
    (forall rc out, listing = Exited rc out -> rc <> 0%Z -> b = false) /\
    (listing = Missing -> b = false) /\
    (listing = Hangs -> b = false).
Proof.
  intros listing.
  destruct (Probes.is_ubuntu_installed_run w) as [Hrun _].
  eexists. split; [exact Hrun |].
  fold listing. clearbody listing.
  destruct listing as [rc out| |].
  - destruct (Z.eqb_spec rc 0) as [-> | Hrc]; cbn [andb].
    + change "ubuntu" with (Str.lower "Ubuntu").
      rewrite StrFacts.contains_lower_strip by reflexivity.
      repeat split; try discriminate.
      * intros H. now exists out.
      * intros (out' & [= <-] & H). exact H.
      * intros rc' out' [= <- _] Hne. now destruct Hne.
    + repeat split; try discriminate; try reflexivity.
      intros (out' & [= -> _] & _). now destruct Hrc.
  - repeat split; try discriminate; try reflexivity.
    intros (out' & [=] & _).
  - repeat split; try discriminate; try reflexivity.
    intros (out' & [=] & _).
Qed.

Lemma guest_distribution_probe_witness :
  result (WSLManager.is_ubuntu_installed (Hosts.ready [])) = Ret true.
Proof.
  destruct (guest_distribution_probe (Hosts.ready [])) as (b & Hr & Hiff & _).
  rewrite Hr. f_equal. apply Hiff. eexists. split; [reflexivity |].
  apply StrFacts.contains_lower_iff. vm_compute. reflexivity.
Defined.

(** C7, as the code has it. The ApplicationRuntime+App probe always
    returns. Phase 1 succeeds when the locate query exits 0 and its
    output is non-empty after surrounding white space is stripped. The
    version query is run exactly when phase 1 ran to an exit without
    succeeding, and then decides by its exit code. A query that cannot be
    started or does not return gives unsatisfied at once. *)
Theorem application_probe_two_phase (w : World) :
  let o := ClaudeCodeManager.is_claude_installed w in
  let phase1 := respond w (issued w) locate_query in
  let phase2 := respond w (issued w ++ [locate_query]) app_version_query in
  result o =
    Ret (located phase1 || (completed phase1 && exited_zero phase2)) /\
  (Run app_version_query false ∈ events o <->
   completed phase1 = true /\ located phase1 = false).
Proof.
  intros o phase1 phase2. unfold o.
  destruct (Probes.is_claude_installed_run w) as [Hr He].
  rewrite Hr, He. fold phase1 phase2. split; [reflexivity |].
  destruct (completed phase1), (located phase1); cbn;
    rewrite ?elem_of_cons, ?elem_of_nil; split;
    intuition (discriminate || congruence).
Qed.

(** C7 as stated fails: the locate query exits 0 with non-empty output (a
    line break), the version query fails, and the probe answers
    unsatisfied. *)
Lemma application_probe_blank_output :
  let w := Hosts.ready_blank_which in
  (exists out,
     respond w (issued w) locate_query = Exited 0 out /\ out <> EmptyString) /\
  result (ClaudeCodeManager.is_claude_installed w) = Ret false.
Proof.
  split.
  - exists Hosts.LF. split; [reflexivity | discriminate].
  - vm_compute. reflexivity.
Qed.

(** C10. The ShellIntegration probe opens the folder-background key and
    nothing else: it answers satisfied exactly when that key is present,
    changes nothing, and so answers satisfied on a host that has neither
    the sibling folder key nor the launcher. *)
Theorem shell_integration_probe_one_key (w : World) :
  let o := ContextMenuManager.is_installed w in
  (result o = Ret true <->
   exists key,
     result
       (winreg.OpenKey HKEY_CLASSES_ROOT
          "Directory\Background\shell\OpenInClaude" w) = Ret key) /\
  (result o = Ret true <-> BG_KEY ∈ hkcr w) /\
  result o = Ret (bool_decide (BG_KEY ∈ hkcr w)) /\
  events o =
    [Enter IsInstalled; RegOpenKey BG_KEY;
     Leave IsInstalled (bool_decide (BG_KEY ∈ hkcr w))] /\
  final o = w /\
  (let w0 := Hosts.background_key_only in
   (FOLDER_KEY ∉ hkcr w0) /\ c_scripts w0 = None /\
   result (ContextMenuManager.is_installed w0) = Ret true).
Proof.
  intros o. unfold o.
  destruct (Probes.is_installed_run w) as (Hr & Hf & He). rewrite Hr, Hf, He.
  split; [| split; [| split; [reflexivity | split; [reflexivity | split; [reflexivity |]]]]].
  - unfold winreg.OpenKey. rewrite Probes.background_key_path.
    destruct (bool_decide (BG_KEY ∈ hkcr w)); cbn; split.
    + intros _. now exists BG_KEY.
    + reflexivity.
    + discriminate.
    + intros [key [=]].
  - split.
    + intros [= H]. now apply bool_decide_eq_true in H.
    + intros H. now rewrite bool_decide_eq_true_2.
  - cbv zeta. split; [| split; [reflexivity | vm_compute; reflexivity]].
    apply (bool_decide_eq_false_1 (FOLDER_KEY ∈ hkcr Hosts.background_key_only)).
    vm_compute. reflexivity.
Qed.

(** ** The prerequisite check and the modes behind it *)

Module Modes.
Import WSLManager ClaudeCodeManager ContextMenuManager ClaudeInstaller.
Import Orchestration.

Lemma prints_no_steps l : forallb is_print l = true -> steps l = [].
Proof.
  induction l as [|e l IH]; [reflexivity |]. cbn [forallb].
  intros [He Hl]%andb_true_iff. destruct e; try discriminate. cbn. auto.
Qed.

Lemma prints_read_only l : forallb is_print l = true -> read_only l = true.
Proof.
  unfold read_only. induction l as [|e l IH]; [reflexivity |]. cbn [forallb].
  intros [He Hl]%andb_true_iff. destruct e; try discriminate.
  rewrite IH by assumption. reflexivity.
Qed.

Lemma prints_only l e : forallb is_print l = true -> e ∈ l -> is_print e = true.
Proof.
  rewrite forallb_forall. intros H Hin. apply H. now apply list_elem_of_In.
Qed.

Lemma read_only_app l1 l2 :
  read_only (l1 ++ l2) = read_only l1 && read_only l2.
Proof. apply forallb_app. Qed.

Lemma check_prerequisites_run w :
  let o := check_prerequisites w in
  result o = Ret (prerequisites_met w) /\
  final o = w /\
  forallb is_print (events o) = true.
Proof.
  intros o. unfold o.
  change (wp check_prerequisites w
            (fun r w1 e =>
               r = Ret (prerequisites_met w) /\ w1 = w /\
               forallb is_print e = true)).
  unfold check_prerequisites, prerequisites_met.
  destruct (IsUserAnAdmin w) as [[|]|] eqn:Hadmin;
    destruct (version_too_old (version_info w)) eqn:Hold;
    repeat first
      [ wp_step
      | wp_prereq;
        rewrite ?Hadmin, ?Hold; cbn [andb negb] ];
    repeat split.
Qed.

(** Running the prerequisite check inside a larger computation. *)
Lemma wp_check_prerequisites w Q :
  (forall evs, forallb is_print evs = true ->
     Q (Ret (prerequisites_met w)) w evs) ->
  wp check_prerequisites w Q.
Proof.
  intros H. unfold wp.
  destruct (check_prerequisites_run w) as (Hr & Hf & Hp).
  rewrite Hr, Hf. now apply H.
Qed.

Lemma wp_is_installed w Q :
  Q (Ret (bool_decide (BG_KEY ∈ hkcr w))) w
    [Enter IsInstalled; RegOpenKey BG_KEY;
     Leave IsInstalled (bool_decide (BG_KEY ∈ hkcr w))] ->
  wp is_installed w Q.
Proof.
  intros H. unfold wp.
  destruct (Probes.is_installed_run w) as (Hr & Hf & He).
  now rewrite Hr, Hf, He.
Qed.

Ltac main_dispatch :=
  unfold main;
  cbn [no_arguments uninstall_args context_only_args console_args status_args
         arg_context_only arg_uninstall arg_status arg_gui arg_console
         andb orb negb];
  repeat wp_step.

Lemma main_uninstall_result w :
  result (main uninstall_args w) = exit_of (result (uninstall w)).
Proof.
  change (wp (main uninstall_args) w
            (fun r _ _ => r = exit_of (result (uninstall w)))).
  main_dispatch. unfold wp. destruct (result (uninstall w)); reflexivity.
Qed.

Lemma main_context_only_result w :
  result (main context_only_args w) =
    exit_of (result (install_context_menu_only w)).
Proof.
  change (wp (main context_only_args) w
            (fun r _ _ => r = exit_of (result (install_context_menu_only w)))).
  main_dispatch. unfold wp.
  destruct (result (install_context_menu_only w)); reflexivity.
Qed.

Lemma main_console_result w :
  result (main console_args w) = exit_of (result (install_full w)).
Proof.
  change (wp (main console_args) w
            (fun r _ _ => r = exit_of (result (install_full w)))).
  main_dispatch. unfold wp. destruct (result (install_full w)); reflexivity.
Qed.

Lemma not_elevated_not_met w :
  result (is_admin w) = Ret false -> prerequisites_met w = false.
Proof.
  unfold is_admin, prerequisites_met. cbn. intros [= ->]. reflexivity.
Qed.

Ltac refuse Hmet :=
  repeat first
    [ wp_step
    | apply wp_check_prerequisites; intros ? ?; rewrite Hmet; cbn [negb] ];
  repeat split;
  rewrite ?forallb_app, ?app_nil_r; cbn [forallb is_print andb];
  rewrite ?andb_true_r; assumption.

Lemma install_full_refused w :
  prerequisites_met w = false -> refused w (install_full w).
Proof.
  intros Hmet.
  change (wp install_full w
            (fun r w1 e =>
               r = Ret false /\ w1 = w /\ forallb is_print e = true)).
  unfold install_full. refuse Hmet.
Qed.

Lemma install_context_menu_only_refused w :
  prerequisites_met w = false -> refused w (install_context_menu_only w).
Proof.
  intros Hmet.
  change (wp install_context_menu_only w
            (fun r w1 e =>
               r = Ret false /\ w1 = w /\ forallb is_print e = true)).
  unfold install_context_menu_only. refuse Hmet.
Qed.

Lemma uninstall_refused w :
  prerequisites_met w = false -> refused w (uninstall w).
Proof.
  intros Hmet.
  change (wp uninstall w
            (fun r w1 e =>
               r = Ret false /\ w1 = w /\ forallb is_print e = true)).
  unfold uninstall. refuse Hmet.
Qed.


End Modes.

(** C4, as the code has it. When the elevation check answers false, each
    of the three mutating modes answers failure after writing to the
    console only: no probe, installer or remover is entered, no command
    is run, no registry or file operation is attempted, and the host is
    left as it was. The process exit status is 1. *)
Theorem permission_gate (w : World) :
  result (is_admin w) = Ret false ->
  refused w (ClaudeInstaller.install_full w) /\
  refused w (ClaudeInstaller.install_context_menu_only w) /\
  refused w (ClaudeInstaller.uninstall w) /\
  result (main console_args w) = Ret 1%Z /\
  result (main context_only_args w) = Ret 1%Z /\
  result (main uninstall_args w) = Ret 1%Z.
Proof.
  intros Hdenied. apply Modes.not_elevated_not_met in Hdenied.
  pose proof (Modes.install_full_refused w Hdenied) as Hf.
  pose proof (Modes.install_context_menu_only_refused w Hdenied) as Hc.
  pose proof (Modes.uninstall_refused w Hdenied) as Hu.
  repeat split; try apply Hf; try apply Hc; try apply Hu.
  - rewrite Modes.main_console_result. destruct Hf as [-> _]. reflexivity.
  - rewrite Modes.main_context_only_result. destruct Hc as [-> _]. reflexivity.
  - rewrite Modes.main_uninstall_result. destruct Hu as [-> _]. reflexivity.
Qed.

Lemma permission_gate_witness :
  result (is_admin Hosts.bare_denied) = Ret false /\
  refused Hosts.bare_denied (ClaudeInstaller.uninstall Hosts.bare_denied).
Proof.
  split; [reflexivity |].
  apply (permission_gate Hosts.bare_denied). reflexivity.
Defined.

(** C4 as stated fails: a refused run has no outcome of its own. It
    answers what a run with a failed installer answers, with the same exit
    status, and says nothing about any stage. *)
Lemma permission_denied_not_distinct :
  let denied := Hosts.bare_denied in
  let failing := Hosts.bare_failing in
  result (is_admin denied) = Ret false /\
  result (is_admin failing) = Ret true /\
  report (call_log (ClaudeInstaller.install_full failing)) =
    [(VirtualizationLayer, Failed)] /\
  result (ClaudeInstaller.install_full denied) =
    result (ClaudeInstaller.install_full failing) /\
  result (main console_args denied) = result (main console_args failing) /\
  report (call_log (ClaudeInstaller.install_full denied)) = [].
Proof. vm_compute. repeat split. Qed.

(** C8. When, in uninstall mode, the ShellIntegration probe reports
    unsatisfied, the remover is not entered, nothing on the host is
    changed or attempted to be changed, and the mode answers success: the
    process exit status is 0. *)
Theorem uninstall_absent_is_success (w : World) :
  let o := ClaudeInstaller.uninstall w in
  Leave IsInstalled false ∈ call_log o ->
  (Enter UninstallContextMenu ∉ events o) /\
  read_only (events o) = true /\
  same_store w (final o) /\
  result o = Ret true /\
  result (main uninstall_args w) = Ret 0%Z.
Proof.
  intros o. unfold o. rewrite Modes.main_uninstall_result.
  change (wp ClaudeInstaller.uninstall w
            (fun r w1 e =>
               Leave IsInstalled false ∈ steps e ->
               (Enter UninstallContextMenu ∉ e) /\
               read_only e = true /\ same_store w w1 /\
               r = Ret true /\ exit_of r = Ret 0%Z)).
  unfold ClaudeInstaller.uninstall.
  repeat wp_step. apply Modes.wp_check_prerequisites. intros evs Hp.
  pose proof (Modes.prints_no_steps _ Hp) as Hs.
  destruct (prerequisites_met w); cbn [negb]; repeat wp_step.
  - apply Modes.wp_is_installed.
    destruct (bool_decide (BG_KEY ∈ hkcr w)); cbn [negb]; repeat wp_step.
    + eapply wp_of_summary; [apply Calls.uninstall_context_menu_called |].
      intros r w1 e1 (b & -> & He1). steps_norm.
      mem_norm. intuition discriminate.
    + intros _. repeat split.
      * assert (Hno : Enter UninstallContextMenu ∉ evs).
        { intros Hin. now apply (Modes.prints_only _ _ Hp) in Hin. }
        mem_norm. intuition discriminate.
      * rewrite !Modes.read_only_app, (Modes.prints_read_only _ Hp). reflexivity.
  - steps_norm. rewrite elem_of_nil. intros [].
Qed.

Lemma uninstall_absent_is_success_witness :
  let w := Hosts.without_menu in
  Leave IsInstalled false ∈ call_log (ClaudeInstaller.uninstall w) /\
  result (main uninstall_args w) = Ret 0%Z.
Proof.
  assert (H : Leave IsInstalled false
                ∈ call_log (ClaudeInstaller.uninstall Hosts.without_menu)).
  { apply (bool_decide_unpack _). vm_compute. exact I. }
  split; [exact H |].
  apply (uninstall_absent_is_success Hosts.without_menu H).
Defined.

(** ** Status *)

Module Status.
Import WSLManager ClaudeCodeManager ContextMenuManager ClaudeInstaller.

Lemma observed_refl w : observed w w [].
Proof. repeat split. Qed.

Lemma observed_trans w1 w2 w3 e1 e2 :
  observed w1 w2 e1 -> observed w2 w3 e2 -> observed w1 w3 (e1 ++ e2).
Proof.
  unfold observed, same_store. intros [[H1 H2] H3] [[H4 H5] H6].
  rewrite Modes.read_only_app, H3, H6. repeat split; congruence.
Qed.

(** Using a sub-computation that only observes. *)
Lemma wp_observing {A} (m : M A) w (P : Res A -> Prop) Q :
  observed w (final (m w)) (events (m w)) /\ P (result (m w)) ->
  (forall r w1 e1, observed w w1 e1 -> P r -> Q r w1 e1) ->
  wp m w Q.
Proof. unfold wp. intros [H1 H2] H. auto. Qed.

Ltac observed_leaf :=
  split; [split; reflexivity | vm_compute; reflexivity].

Lemma is_wsl_installed_observes w :
  let o := is_wsl_installed w in
  observed w (final o) (events o) /\
  ((returns_bool (result o) /\
    respond w (issued w) version_query <> Hangs) \/
   (result o = Raise TimeoutExpired /\
    respond w (issued w) version_query = Hangs)).
Proof.
  intros o. unfold o.
  change (wp is_wsl_installed w
            (fun r w1 e =>
               observed w w1 e /\
               ((returns_bool r /\
                 respond w (issued w) version_query <> Hangs) \/
                (r = Raise TimeoutExpired /\
                 respond w (issued w) version_query = Hangs)))).
  unfold is_wsl_installed. fold version_query.
  repeat wp_step;
    (split;
     [ observed_leaf
     | first [ left; split; [eexists; reflexivity | congruence]
             | right; split; [reflexivity | assumption] ] ]).
Qed.

Lemma is_ubuntu_installed_observes w :
  let o := is_ubuntu_installed w in
  observed w (final o) (events o) /\ returns_bool (result o).
Proof.
  intros o. unfold o.
  change (wp is_ubuntu_installed w
            (fun r w1 e => observed w w1 e /\ returns_bool r)).
  unfold is_ubuntu_installed.
  repeat wp_step; (split; [observed_leaf | eexists; reflexivity]).
Qed.

Lemma is_claude_installed_observes w :
  let o := is_claude_installed w in
  observed w (final o) (events o) /\ returns_bool (result o).
Proof.
  intros o. unfold o.
  change (wp is_claude_installed w
            (fun r w1 e => observed w w1 e /\ returns_bool r)).
  unfold is_claude_installed.
  repeat wp_step; (split; [observed_leaf | eexists; reflexivity]).
Qed.

Lemma is_installed_observes w :
  let o := is_installed w in
  observed w (final o) (events o) /\ returns_bool (result o).
Proof.
  intros o. unfold o.
  destruct (Probes.is_installed_run w) as (Hr & Hf & He).
  rewrite Hr, Hf, He. split; [observed_leaf | eexists; reflexivity].
Qed.

Ltac wp_probe :=
  lazymatch goal with
  | |- wp is_wsl_installed ?w _ =>
      apply (wp_observing is_wsl_installed w
               (fun r =>
                  (returns_bool r /\
                   respond w (issued w) version_query <> Hangs) \/
                  (r = Raise TimeoutExpired /\
                   respond w (issued w) version_query = Hangs)));
      [ exact (is_wsl_installed_observes w)
      | intros ? ? ? ? [[[? ->] ?] | [-> ?]] ]
  | |- wp is_ubuntu_installed ?w _ =>
      apply (wp_observing is_ubuntu_installed w returns_bool);
      [ exact (is_ubuntu_installed_observes w) | intros ? ? ? ? [? ->] ]
  | |- wp is_claude_installed ?w _ =>
      apply (wp_observing is_claude_installed w returns_bool);
      [ exact (is_claude_installed_observes w) | intros ? ? ? ? [? ->] ]
  | |- wp is_installed ?w _ =>
      apply (wp_observing is_installed w returns_bool);
      [ exact (is_installed_observes w) | intros ? ? ? ? [? ->] ]
  end.

Ltac status_leaf :=
  split;
  [ unfold observed, same_store in *;
    cbn [hkcr c_scripts set_issued] in *;
    repeat match goal with
      | H : (_ /\ _) /\ _ |- _ => destruct H as [[? ?] ?]
      end;
    split;
    [ split; congruence
    | rewrite ?Modes.read_only_app;
      repeat match goal with
        | H : read_only _ = true |- _ => rewrite H; clear H
        end;
      vm_compute; reflexivity ]
  | first [ left; split; [reflexivity | assumption]
          | right; split; [reflexivity | assumption] ] ].

(** The status display only observes, and ends normally unless the
    version query of the virtualization layer does not return. *)
Lemma show_status_observes w :
  let o := show_status w in
  observed w (final o) (events o) /\
  ((result o = Ret tt /\ respond w (issued w) version_query <> Hangs) \/
   (result o = Raise TimeoutExpired /\
    respond w (issued w) version_query = Hangs)).
Proof.
  intros o. unfold o.
  change (wp show_status w
            (fun r w1 e =>
               observed w w1 e /\
               ((r = Ret tt /\ respond w (issued w) version_query <> Hangs) \/
                (r = Raise TimeoutExpired /\
                 respond w (issued w) version_query = Hangs)))).
  unfold show_status.
  repeat first [ wp_step | wp_probe ]; status_leaf.
Qed.

Lemma main_status_result w :
  result (main status_args w) =
    match result (show_status w) with
    | Ret _ => Ret 0%Z
    | Raise _ => Ret 1%Z
    end.
Proof.
  change (wp (main status_args) w
            (fun r _ _ =>
               r = match result (show_status w) with
                   | Ret _ => Ret 0%Z
                   | Raise _ => Ret 1%Z
                   end)).
  Modes.main_dispatch. unfold wp. destruct (result (show_status w)); reflexivity.
Qed.

(** The exit status of [--status] is 0, except that it is 1 when the
    version query of the virtualization layer does not return. *)
Lemma main_status_exit w :
  result (main status_args w) =
    Ret (match respond w (issued w) version_query with
         | Hangs => 1%Z
         | _ => 0%Z
         end).
Proof.
  rewrite main_status_result.
  destruct (show_status_observes w) as [_ [[-> Hne] | [-> ->]]];
    [| reflexivity].
  now destruct (respond w (issued w) version_query).
Qed.
End Status.

(** C5. The status display probes and never changes the host, but the
    exit status is not always 0: when the version query of the
    virtualization layer does not return within the time limit, the
    exception leaves the probe, the remaining stages are not probed and
    the process exits with status 1. *)
Theorem status_exit_when_version_query_hangs :
  let w := Hosts.ready_wsl_hangs in
  let o := main status_args w in
  respond w (issued w) version_query = Hangs /\
  result o = Ret 1%Z /\
  call_log o = [Enter IsWslInstalled] /\
  observed w (final o) (events o).
Proof.
  repeat split; vm_compute; reflexivity.
Qed.

(** The sibling probe of the guest distribution answers unsatisfied when
    its command does not return. *)
Lemma sibling_probe_survives_hanging_command (w : World) :
  respond w (issued w) list_query = Hangs ->
  result (WSLManager.is_ubuntu_installed w) = Ret false.
Proof.
  intros H. destruct (Probes.is_ubuntu_installed_run w) as [Hr _].
  rewrite Hr, H. reflexivity.
Qed.



(** ** Full installation *)

Module Full.
Import ClaudeInstaller.

(** All the runs the shape of [install_full] allows. *)
Ltac chain_cases :=
  unfold full_sections in *;
  repeat match goal with
    | H : chain (_ :: _) _ _ |- _ => inversion H; subst; clear H
    | H : chain [] _ _ |- _ => inversion H; subst; clear H
    | H : wsl_shape _ _ |- _ => inversion H; subst; clear H
    | H : probe_apply_shape _ _ _ _ |- _ => inversion H; subst; clear H
    | H : context_menu_shape _ _ |- _ => inversion H; subst; clear H
    | H : ?r <> ?r |- _ => destruct (H eq_refl)
    | H : Ret ?b <> Ret true |- _ =>
        destruct b; [destruct (H eq_refl) | clear H]
    | H : Raise _ <> Ret true |- _ => clear H
    end;
  repeat match goal with b : bool |- _ => destruct b end;
  cbn [app] in *.

(** A membership fact about a concrete log, as a truth value. *)
Ltac eval_mem H :=
  first [ apply (bool_decide_pack _) in H
        | apply (bool_decide_eq_false_2 _) in H ];
  vm_compute in H;
  first [ exact (False_ind _ H) | discriminate H | clear H ].

Ltac eval_before :=
  repeat match goal with
    | |- context [before ?e ?l] =>
        let l' := eval vm_compute in (before e l) in
        change (before e l) with l'
    end.

(** Replace a run by the shapes it can have. *)
Ltac by_shape w :=
  let H := fresh "Hshape" in
  pose proof (Orchestration.install_full_shape w) as H; revert H;
  generalize (result (install_full w)), (call_log (install_full w));
  let r := fresh "r" in
  let log := fresh "log" in
  intros r log [[-> ->] | H].

End Full.

Import Full.

(** C2, as the code has it. In a full installation every installer is
    entered at most once. The installers of the first three stages are
    entered only after the probe of their stage answered unsatisfied. The
    ShellIntegration installer is entered either after its probe answered
    unsatisfied, or after the probe answered satisfied, the operator
    confirmed the update and the remover was entered. *)
Theorem apply_at_most_once (w : World) :
  let log := call_log (ClaudeInstaller.install_full w) in
  (forall m, is_apply m = true -> occurrences (Enter m) log <= 1) /\
  (forall m, is_apply m = true -> m <> InstallContextMenu ->
     Enter m ∈ log -> Leave (probe_of m) false ∈ before (Enter m) log) /\
  (Enter InstallContextMenu ∈ log ->
   Leave IsInstalled false ∈ before (Enter InstallContextMenu) log \/
   (Leave IsInstalled true ∈ before (Enter InstallContextMenu) log /\
    Enter UninstallContextMenu ∈ before (Enter InstallContextMenu) log /\
    exists a,
      Input update_prompt (Some a) ∈ before (Enter InstallContextMenu) log /\
      confirms a = true)).
Proof.
  intros log. subst log. by_shape w.
  - repeat split.
    + intros m _. destruct m; apply Nat.leb_le; reflexivity.
    + intros m _ _ H. mem_hyp H.
    + intros H. mem_hyp H.
  - chain_cases.
    all: (split; [ idtac | split ]).
    all: try (intros m Hm; destruct m; try discriminate Hm; clear Hm;
              apply Nat.leb_le; vm_compute; reflexivity).
    all: try (intros m Hm Hne Hin; destruct m; try discriminate Hm;
              try (destruct (Hne eq_refl)); clear Hm Hne;
              eval_mem Hin; eval_before; decide_mem).
    all: intros Hin; eval_mem Hin; eval_before.
    all: first
      [ left; decide_mem
      | right; split; [decide_mem |];
        (split; [decide_mem |]); eexists; (split; [mem_goal | assumption]) ].
Qed.

Lemma apply_at_most_once_witness :
  occurrences (Enter InstallContextMenu)
    (call_log (ClaudeInstaller.install_full (Hosts.ready ["y"]))) <= 1.
Proof. apply (apply_at_most_once (Hosts.ready ["y"])). reflexivity. Defined.

(** C2 as stated fails: the ShellIntegration probe answers satisfied, the
    operator confirms the update, and the installer is entered. *)
Lemma update_reapplies_after_satisfied_probe :
  let log := call_log (ClaudeInstaller.install_full (Hosts.ready ["y"])) in
  Leave IsInstalled true ∈ log /\
  (Leave IsInstalled false ∉ log) /\
  Enter InstallContextMenu ∈ log.
Proof. repeat split; decide_mem. Qed.

(** C1, as the code has it. If in a full installation the probe of a stage
    answers unsatisfied and an installer of that stage fails, the run
    answers failure at once: the failed call is the last step, no method
    of a later stage is entered or returns, every earlier stage has been
    found satisfied or been installed and none of them failed, and no
    stage is recorded as skipped. *)
Theorem failed_apply_ends_the_run (w : World) (a : Method) :
  let o := ClaudeInstaller.install_full w in
  let log := call_log o in
  is_apply a = true ->
  Leave (probe_of a) false ∈ log ->
  Leave a false ∈ log ->
  result o = Ret false /\
  last log = Some (Leave a false) /\
  (forall m, position (stage_of a) < position (stage_of m) ->
     (Enter m ∉ log) /\ forall b, Leave m b ∉ log) /\
  (forall s, position s < position (stage_of a) ->
     ((s, AlreadySatisfied) ∈ report log \/ (s, Applied) ∈ report log) /\
     ((s, Failed) ∉ report log)) /\
  (forall s, (s, SkippedUnmetDependency) ∉ report log).
Proof.
  intros o log. subst o log. by_shape w; intros Ha Hprobe Hfail.
  - mem_hyp Hfail.
  - chain_cases.
    all: destruct a; try discriminate Ha; clear Ha.
    all: eval_mem Hprobe; eval_mem Hfail.
    all: (split; [reflexivity |]).
    all: (split; [vm_compute; reflexivity |]).
    all: (split; [ idtac | split ]).
    all: try (intros m Hlt; apply Nat.ltb_lt in Hlt; destruct m;
              vm_compute in Hlt; try discriminate Hlt; clear Hlt;
              (split; [decide_mem | intros b; destruct b; decide_mem])).
    all: try (intros s Hlt; apply Nat.ltb_lt in Hlt; destruct s;
              vm_compute in Hlt; try discriminate Hlt; clear Hlt;
              (split; [first [left; decide_mem | right; decide_mem]
                      | decide_mem])).
    all: intros s; destruct s; decide_mem.
Qed.

Lemma failed_apply_ends_the_run_witness :
  let o := ClaudeInstaller.install_full Hosts.bare_failing in
  is_apply InstallWsl = true /\
  Leave IsWslInstalled false ∈ call_log o /\
  Leave InstallWsl false ∈ call_log o /\
  result o = Ret false /\
  last (call_log o) = Some (Leave InstallWsl false).
Proof.
  intros o.
  assert (H1 : Leave (probe_of InstallWsl) false ∈ call_log o) by decide_mem.
  assert (H2 : Leave InstallWsl false ∈ call_log o) by decide_mem.
  destruct (failed_apply_ends_the_run Hosts.bare_failing InstallWsl eq_refl H1 H2)
    as (Hr & Hlast & _).
  repeat split; assumption.
Defined.

(** C1 as stated fails: after the failed installer of the first stage the
    run says nothing about the later stages; what it tells is the single
    failure. *)
Lemma failed_apply_records_nothing_later :
  let o := ClaudeInstaller.install_full Hosts.bare_failing in
  let log := call_log o in
  Leave IsWslInstalled false ∈ log /\
  Leave InstallWsl false ∈ log /\
  ((GuestDistribution, SkippedUnmetDependency) ∉ report log) /\
  report log = [(VirtualizationLayer, Failed)] /\
  result o = Ret false.
Proof.
  repeat split; first [decide_mem | vm_compute; reflexivity].
Qed.



(** The answer of a run is not always that of its report: with the update
    confirmed, the answers of the remover and of the installer are not
    looked at (the installer's answer is looked at when the probe found
    nothing). Here the first run answers success although the installer of
    ShellIntegration failed, and the run after it finds the menu gone. *)
Lemma update_failure_still_answers_success :
  let first := ClaudeInstaller.install_full (Hosts.ready_locked_disk ["y"]) in
  let second := ClaudeInstaller.install_full (next_run (final first) []) in
  result first = Ret true /\
  Leave InstallContextMenu false ∈ call_log first /\
  (ShellIntegration, Failed) ∈ report (call_log first) /\
  Leave IsInstalled false ∈ call_log second /\
  result second = Ret false.
Proof.
  repeat split; first [decide_mem | vm_compute; reflexivity].
Qed.

(** * Further properties of the single functions *)

(** ** Installers that run commands *)

Module Sequences.
Import WSLManager ClaudeCodeManager.

(** A command run with [check=True] either exits with code 0 or raises. *)
Lemma wp_checked c w Q :
  let w' := set_issued w (issued w ++ [c]) in
  (exited_zero (respond w (issued w) c) = true ->
   forall cp, Q (Ret cp) w' [Run c true]) ->
  (exited_zero (respond w (issued w) c) = false ->
   forall e, Q (Raise e) w' [Run c true]) ->
  wp (run_command c true) w Q.
Proof.
  intros w' H1 H2. unfold wp, run_command.
  destruct (respond w (issued w) c) as [rc out| |]; cbn in *.
  - destruct (rc =? 0)%Z; cbn; auto.
  - auto.
  - auto.
Qed.

Ltac wp_seq :=
  lazymatch goal with
  | |- wp (run_command _ true) _ _ =>
      apply wp_checked; cbn [respond issued set_issued];
      [ intros ? ? | intros ? ? ]
  | _ => wp_step
  end.

Lemma set_issued_twice w l1 l2 :
  set_issued (set_issued w l1) l2 = set_issued w l2.
Proof. reflexivity. Qed.

Ltac seq_leaf :=
  unfold checked_run; cbn [run_checked];
  repeat match goal with
    | H : exited_zero _ = _ |- _ => rewrite H; clear H; cbn [run_checked]
    end;
  cbn [result final events issued set_issued respond];
  repeat split; try reflexivity;
  rewrite <- ?List.app_assoc; reflexivity.

Lemma setup_ubuntu_environment_checked w :
  checked_run w setup_commands (WSLManager.setup_ubuntu_environment w).
Proof.
  change (wp WSLManager.setup_ubuntu_environment w
            (fun r w1 e =>
               checked_run w setup_commands (mkOutcome r w1 e))).
  unfold WSLManager.setup_ubuntu_environment, setup_commands.
  repeat wp_seq; seq_leaf.
Qed.

Lemma install_claude_code_checked w :
  checked_run w claude_install_commands
    (ClaudeCodeManager.install_claude_code w).
Proof.
  change (wp ClaudeCodeManager.install_claude_code w
            (fun r w1 e =>
               checked_run w claude_install_commands (mkOutcome r w1 e))).
  unfold ClaudeCodeManager.install_claude_code, claude_install_commands.
  repeat wp_seq; seq_leaf.
Qed.

Lemma single_installers_checked w :
  checked_run w [wsl_install_command] (WSLManager.install_wsl w) /\
  checked_run w [ubuntu_install_command] (WSLManager.install_ubuntu w).
Proof.
  split.
  - change (wp WSLManager.install_wsl w
              (fun r w1 e =>
                 checked_run w [wsl_install_command] (mkOutcome r w1 e))).
    unfold WSLManager.install_wsl, wsl_install_command.
    repeat wp_seq; seq_leaf.
  - change (wp WSLManager.install_ubuntu w
              (fun r w1 e =>
                 checked_run w [ubuntu_install_command] (mkOutcome r w1 e))).
    unfold WSLManager.install_ubuntu, ubuntu_install_command.
    repeat wp_seq; seq_leaf.
Qed.

Lemma is_wsl_installed_run w :
  let o := WSLManager.is_wsl_installed w in
  result o =
    match respond w (issued w) version_query with
    | Exited rc _ => Ret (rc =? 0)%Z
    | Missing => Ret false
    | Hangs => Raise TimeoutExpired
    end /\
  commands_run (events o) = [version_query] /\
  final o = set_issued w (issued w ++ [version_query]).
Proof.
  intros o. subst o.
  change (wp WSLManager.is_wsl_installed w
            (fun r w1 e =>
               r = match respond w (issued w) version_query with
                   | Exited rc _ => Ret (rc =? 0)%Z
                   | Missing => Ret false
                   | Hangs => Raise TimeoutExpired
                   end /\
               commands_run e = [version_query] /\
               w1 = set_issued w (issued w ++ [version_query]))).
  unfold WSLManager.is_wsl_installed. fold version_query.
  repeat wp_step;
    match goal with H : respond _ _ _ = _ |- _ => rewrite H end;
    repeat split.
Qed.

End Sequences.

Import Sequences.

(** X5. setup_ubuntu_environment never raises. It starts its seven
    commands in source order, each answered by the process layer after the
    ones before it; the first command that does not exit with code 0 is the
    last one started and makes it answer False; it answers True when all
    seven exit with code 0. Apart from the record of the commands run, the
    host is as before. *)
Theorem setup_ubuntu_environment_runs_until_failure w :
  checked_run w setup_commands (WSLManager.setup_ubuntu_environment w).
Proof. apply Sequences.setup_ubuntu_environment_checked. Qed.

(** X6. install_claude_code never raises. It starts its three commands in
    source order and stops at the first that does not exit with code 0; it
    answers True exactly when all three exit with code 0, the last being
    the version query of the application. *)
Theorem install_claude_code_runs_until_failure w :
  checked_run w claude_install_commands
    (ClaudeCodeManager.install_claude_code w).
Proof. apply Sequences.install_claude_code_checked. Qed.

(** X7. install_wsl and install_ubuntu never raise: each runs its one
    install command and answers whether it exited with code 0; a command
    that cannot be started or does not return counts as failure. *)
Theorem single_command_installers w :
  checked_run w [wsl_install_command] (WSLManager.install_wsl w) /\
  checked_run w [ubuntu_install_command] (WSLManager.install_ubuntu w).
Proof. apply Sequences.single_installers_checked. Qed.

(** X8. is_wsl_installed runs the version query once and changes nothing
    else. It answers whether the query exited with code 0, answers False
    when the command cannot be started, and raises TimeoutExpired when the
    query does not return: the one probe that can raise. *)
Theorem virtualization_probe_outcomes w :
  let o := WSLManager.is_wsl_installed w in
  result o =
    match respond w (issued w) version_query with
    | Exited rc _ => Ret (rc =? 0)%Z
    | Missing => Ret false
    | Hangs => Raise TimeoutExpired
    end /\
  commands_run (events o) = [version_query] /\
  final o = set_issued w (issued w ++ [version_query]).
Proof. apply Sequences.is_wsl_installed_run. Qed.

(** ** The context menu: registry and files *)

Module Store.
Import ContextMenuManager Menu.

Lemma wp_os {A} (m : M A) w o (Q : Res A -> World -> list Event -> Prop) :
  m w = o -> Q (result o) (final o) (events o) -> wp m w Q.
Proof. intros <-. exact (fun H => H). Qed.

Ltac fields :=
  cbn [IsUserAnAdmin version_info platform_version tk_available respond
       issued hkcr hkcr_writable c_scripts disk_writable stdin
       set_issued set_hkcr set_c_scripts set_stdin result final events
       negb andb orb].

Ltac fields_in H :=
  cbn [IsUserAnAdmin version_info platform_version tk_available respond
       issued hkcr hkcr_writable c_scripts disk_writable stdin
       set_issued set_hkcr set_c_scripts set_stdin result final events
       negb andb orb] in H.

(** An operating-system call, executed on the store as it is. *)
Ltac os_call :=
  eapply wp_os;
  [ unfold winreg.CreateKey, winreg.SetValue, winreg.DeleteKey,
      Path.mkdir_exist_ok, Path.write_launcher, Path.launcher_exists,
      Path.unlink_launcher, Path.exists_and_empty, Path.rmdir;
    cbv zeta; fields; reflexivity
  | fields ].

Lemma wp_done {A} (r : Res A) w1 e w (Q : Res A -> World -> list Event -> Prop) :
  Q r w1 e -> wp (fun _ => mkOutcome r w1 e) w Q.
Proof. exact (fun H => H). Qed.

Lemma wp_os_call {A} (m : M A) w o (Q : Res A -> World -> list Event -> Prop) :
  m w = o -> wp (fun _ => o) w Q -> wp m w Q.
Proof. intros <-. exact (fun H => H). Qed.

Ltac known_atoms :=
  repeat match goal with
    | H : bool_decide ?P = _ |- context [bool_decide ?P] => rewrite H
    | H : winreg.has_subkeys ?r ?k = _
      |- context [winreg.has_subkeys ?r ?k] => rewrite H
    end.

Ltac split_atom b :=
  lazymatch b with
  | context [bool_decide ?P] => destruct (bool_decide P) eqn:?
  | context [winreg.has_subkeys ?r ?k] =>
      destruct (winreg.has_subkeys r k) eqn:?
  end.

(** An operating-system call whose outcome depends on the keys and files
    present. *)
Ltac os_cases :=
  eapply wp_os_call;
  [ unfold winreg.CreateKey, winreg.SetValue, winreg.DeleteKey,
      Path.mkdir_exist_ok, Path.write_launcher, Path.launcher_exists,
      Path.unlink_launcher, Path.exists_and_empty, Path.rmdir;
    cbv zeta; fields; reflexivity
  | known_atoms; fields;
    repeat lazymatch goal with
      | |- wp (fun _ => if ?b then _ else _) _ _ => split_atom b; fields
      end;
    apply wp_done; fields ].

Ltac st_step :=
  lazymatch goal with
  | |- wp (winreg.CreateKey _ _) _ _ => os_call
  | |- wp (winreg.SetValue _ _) _ _ => os_call
  | |- wp (winreg.DeleteKey _ _) _ _ => os_cases
  | |- wp Path.mkdir_exist_ok _ _ => os_call
  | |- wp Path.write_launcher _ _ => os_call
  | |- wp Path.unlink_launcher _ _ => os_cases
  | |- wp Path.rmdir _ _ => os_cases
  | |- wp Path.launcher_exists _ _ => os_call
  | |- wp Path.exists_and_empty _ _ => os_call
  | _ => wp_step
  end.

Lemma path_bg :
  subkey HKEY_CLASSES_ROOT "Directory\\Background\\shell\\OpenInClaude" = BG_KEY.
Proof. vm_compute. reflexivity. Qed.
Lemma path_bg_command : subkey BG_KEY "command" = BG_COMMAND.
Proof. vm_compute. reflexivity. Qed.
Lemma path_folder :
  subkey HKEY_CLASSES_ROOT "Directory\\shell\\OpenInClaude" = FOLDER_KEY.
Proof. vm_compute. reflexivity. Qed.
Lemma path_folder_command : subkey FOLDER_KEY "command" = FOLDER_COMMAND.
Proof. vm_compute. reflexivity. Qed.
Lemma path_bg_command_full :
  subkey HKEY_CLASSES_ROOT
    "Directory\\Background\\shell\\OpenInClaude\\command" = BG_COMMAND.
Proof. vm_compute. reflexivity. Qed.
Lemma path_folder_command_full :
  subkey HKEY_CLASSES_ROOT "Directory\\shell\\OpenInClaude\\command"
  = FOLDER_COMMAND.
Proof. vm_compute. reflexivity. Qed.

Ltac paths :=
  rewrite ?path_bg, ?path_folder, ?path_bg_command_full,
    ?path_folder_command_full, ?path_bg_command, ?path_folder_command.

Lemma created_keys (r : gset Key) :
  r ∪ list_to_set (ancestors_or_self BG_KEY)
    ∪ list_to_set (ancestors_or_self BG_COMMAND)
    ∪ list_to_set (ancestors_or_self FOLDER_KEY)
    ∪ list_to_set (ancestors_or_self FOLDER_COMMAND)
  = r ∪ parent_keys ∪ entry_keys.
Proof.
  unfold parent_keys, entry_keys, BG_COMMAND, FOLDER_COMMAND, BG_KEY, FOLDER_KEY.
  cbn [ancestors_or_self map app list_to_set foldr].
  set_solver.
Qed.

Lemma install_context_menu_store w :
  let o := install_context_menu w in
  result o = Ret (disk_writable w && hkcr_writable w) /\
  (disk_writable w = false -> final o = w) /\
  (disk_writable w = true ->
   c_scripts (final o) = Some (entries w ∪ {[ Path.launcher_name ]}) /\
   hkcr (final o)
   = if hkcr_writable w then hkcr w ∪ parent_keys ∪ entry_keys else hkcr w) /\
  disk_writable (final o) = disk_writable w /\
  hkcr_writable (final o) = hkcr_writable w.
Proof.
  intros o. subst o.
  change (wp install_context_menu w
            (fun r w1 _ =>
               r = Ret (disk_writable w && hkcr_writable w) /\
               (disk_writable w = false -> w1 = w) /\
               (disk_writable w = true ->
                c_scripts w1 = Some (entries w ∪ {[ Path.launcher_name ]}) /\
                hkcr w1
                = if hkcr_writable w then hkcr w ∪ parent_keys ∪ entry_keys
                  else hkcr w) /\
               disk_writable w1 = disk_writable w /\
               hkcr_writable w1 = hkcr_writable w)).
  destruct w as [ad vi pv tk rs iss r rw [d|] [|] inp]; destruct rw;
    unfold entries; cbn [from_option id]; fields.
  all: unfold install_context_menu, create_launcher_script.
  all: repeat st_step.
  all: fields; paths.
  all: repeat split; try discriminate; try reflexivity.
  all: try intros _.
  all: rewrite ?created_keys; try reflexivity.
  all: try (f_equal; set_solver).
Qed.

(** One [try] block of two [DeleteKey] calls. *)
Lemma wp_delete_entry p1 p2 w Q :
  (forall evs,
     Q (Ret tt)
       (set_hkcr w
          (delete_entry (hkcr_writable w) (subkey HKEY_CLASSES_ROOT p1)
             (subkey HKEY_CLASSES_ROOT p2) (hkcr w)))
       evs) ->
  wp (try_except
        (winreg.DeleteKey HKEY_CLASSES_ROOT p1 ;;
         winreg.DeleteKey HKEY_CLASSES_ROOT p2)
        (windows_error (ret tt))) w Q.
Proof.
  intros HQ.
  destruct w as [ad vi pv tk rs iss r rw d dw inp].
  unfold delete_entry, deletable in HQ. fields_in HQ.
  destruct rw; repeat st_step; fields.
  all: repeat match goal with
         | H : _ = _ |- _ => rewrite H in HQ
         end; cbn [negb andb orb] in HQ; apply HQ.
Qed.

Lemma uninstall_context_menu_store w :
  let o := uninstall_context_menu w in
  result o = Ret (negb (launcher_present w) || disk_writable w) /\
  hkcr (final o)
  = delete_entry (hkcr_writable w) FOLDER_COMMAND FOLDER_KEY
      (delete_entry (hkcr_writable w) BG_COMMAND BG_KEY (hkcr w)) /\
  c_scripts (final o) = files_after_uninstall (disk_writable w) (c_scripts w) /\
  disk_writable (final o) = disk_writable w /\
  hkcr_writable (final o) = hkcr_writable w /\
  issued (final o) = issued w /\
  stdin (final o) = stdin w.
Proof.
  intros o. subst o.
  change (wp uninstall_context_menu w
            (fun r w1 _ =>
               r = Ret (negb (launcher_present w) || disk_writable w) /\
               hkcr w1
               = delete_entry (hkcr_writable w) FOLDER_COMMAND FOLDER_KEY
                   (delete_entry (hkcr_writable w) BG_COMMAND BG_KEY (hkcr w)) /\
               c_scripts w1
               = files_after_uninstall (disk_writable w) (c_scripts w) /\
               disk_writable w1 = disk_writable w /\
               hkcr_writable w1 = hkcr_writable w /\
               issued w1 = issued w /\
               stdin w1 = stdin w)).
  destruct w as [ad vi pv tk rs iss r rw [d|] dw inp]; destruct dw;
    unfold launcher_present, entries, files_after_uninstall;
    cbn [default]; fields.
  all: unfold uninstall_context_menu.
  all: repeat first
         [ lazymatch goal with
           | |- wp (try_except (bind (winreg.DeleteKey _ _) _) _) _ _ =>
               apply wp_delete_entry; intros ?; fields; paths
           end
         | st_step ].
  all: cbn [from_option id]; fields; known_atoms; fields.
  all: rewrite ?(bool_decide_eq_false_2 (Path.launcher_name ∈ (∅ : gset string)))
         by set_solver.
  all: repeat split.
Qed.

(** ** Sets *)

Section sets.
Context {A : Type} `{Countable A}.
Implicit Types (X Y Z : gset A) (x : A).

Lemma union_twice X Y Z : X ∪ Y ∪ Z ∪ Y ∪ Z = X ∪ Y ∪ Z.
Proof. set_solver. Qed.

Lemma add_twice X x : X ∪ {[ x ]} ∪ {[ x ]} = X ∪ {[ x ]}.
Proof. set_solver. Qed.

Lemma add_remove X x : x ∉ X -> (X ∪ {[ x ]}) ∖ {[ x ]} = X.
Proof. set_solver. Qed.

Lemma elem_of_added X x : x ∈ X ∪ {[ x ]}.
Proof. set_solver. Qed.

Lemma not_elem_of_removed X x : x ∉ X ∖ {[ x ]}.
Proof. set_solver. Qed.
End sets.

(** ** Keys below a key *)

Lemma has_subkeys_false r k :
  winreg.has_subkeys r k = false <->
  forall k', k' ∈ r -> k `prefix_of` k' -> k' = k.
Proof.
  unfold winreg.has_subkeys. rewrite bool_decide_eq_false. unfold set_Exists.
  split.
  - intros H k' Hin Hpre. destruct (decide (k' = k)) as [|Hne]; [assumption|].
    exfalso. apply H. exists k'. split; [assumption|]. split; congruence.
  - intros H (k' & Hin & Hpre & Hne). apply Hne. symmetry. now apply H.
Qed.

Lemma delete_entry_subseteq rw cmd key r : delete_entry rw cmd key r ⊆ r.
Proof.
  unfold delete_entry.
  destruct (deletable r rw cmd); [|set_solver].
  cbv zeta. destruct (deletable _ rw key); set_solver.
Qed.

Lemma delete_entry_removed rw cmd key r k :
  k ∈ r -> k ∉ delete_entry rw cmd key r -> k = cmd \/ k = key.
Proof.
  unfold delete_entry.
  destruct (deletable r rw cmd); [|tauto].
  cbv zeta. destruct (deletable _ rw key); intros Hin Hout.
  - destruct (decide (k = cmd)); [tauto|].
    destruct (decide (k = key)); [tauto|]. set_solver.
  - destruct (decide (k = cmd)); [tauto|]. set_solver.
Qed.

Lemma delete_entry_kept rw cmd key r :
  rw = false \/ cmd ∉ r -> delete_entry rw cmd key r = r.
Proof.
  unfold delete_entry, deletable. intros [ -> | Hout ].
  - now rewrite andb_false_r.
  - now rewrite bool_decide_eq_false_2.
Qed.

Lemma delete_entry_whole cmd key r :
  cmd ∈ r ->
  (forall k, k ∈ r -> cmd `prefix_of` k -> k = cmd) ->
  (forall k, k ∈ r -> key `prefix_of` k -> k = key \/ k = cmd) ->
  delete_entry true cmd key r = r ∖ {[ cmd ]} ∖ {[ key ]}.
Proof.
  intros Hin Hcmd Hkey. unfold delete_entry, deletable.
  rewrite (bool_decide_eq_true_2 _ Hin).
  rewrite (proj2 (has_subkeys_false r cmd) Hcmd). cbn [negb andb]. cbv zeta.
  match goal with
  | |- context [winreg.has_subkeys ?s key] =>
      assert (winreg.has_subkeys s key = false) as ->
  end.
  { apply has_subkeys_false. intros k Hk Hpre.
    apply elem_of_difference in Hk as [Hk Hne].
    destruct (Hkey k Hk Hpre) as [ ? | -> ]; [assumption|]. set_solver. }
  cbn [negb andb]. rewrite !andb_true_r.
  match goal with
  | |- context [bool_decide ?P] => destruct (bool_decide P) eqn:Hk
  end; [reflexivity|].
  apply bool_decide_eq_false in Hk. set_solver.
Qed.

Lemma prefix_of_command (key k : Key) :
  key ++ ["command"] `prefix_of` k -> key `prefix_of` k.
Proof. intros [t ->]. exists ("command" :: t). now rewrite <- List.app_assoc. Qed.

Lemma not_prefix_shorter (a b : Key) :
  (length b < length a)%nat -> ~ a `prefix_of` b.
Proof. intros Hlen Hpre%prefix_length. lia. Qed.

Lemma delete_entry_installed key r :
  key ++ ["command"] ∈ r ->
  no_foreign_subkeys r key ->
  delete_entry true (key ++ ["command"]) key r
  = r ∖ {[ key ++ ["command"] ]} ∖ {[ key ]}.
Proof.
  intros Hin Hno. apply delete_entry_whole; [assumption | |].
  - intros k Hk Hpre.
    destruct (Hno k Hk (prefix_of_command _ _ Hpre)) as [ -> | ? ]; [|assumption].
    exfalso. revert Hpre. apply not_prefix_shorter.
    rewrite length_app. cbn. lia.
  - intros k Hk Hpre. now apply Hno.
Qed.

Lemma no_foreign_subkeys_subseteq r r' key :
  r' ⊆ r -> no_foreign_subkeys r key -> no_foreign_subkeys r' key.
Proof. intros Hsub Hno k Hk. apply Hno. set_solver. Qed.

Lemma elem_of_entry_keys k :
  k ∈ entry_keys <->
  k = BG_KEY \/ k = BG_COMMAND \/ k = FOLDER_KEY \/ k = FOLDER_COMMAND.
Proof. unfold entry_keys. set_solver. Qed.

Lemma elem_of_parent_keys k :
  k ∈ parent_keys <->
  k = ["Directory"] \/ k = ["Directory"; "Background"] \/
  k = ["Directory"; "Background"; "shell"] \/ k = ["Directory"; "shell"].
Proof. unfold parent_keys. set_solver. Qed.

(** The two entries removed from a registry that holds them and nothing
    else below them. *)
Lemma delete_entries_installed r :
  BG_COMMAND ∈ r -> FOLDER_COMMAND ∈ r ->
  no_foreign_subkeys r BG_KEY -> no_foreign_subkeys r FOLDER_KEY ->
  delete_entry true FOLDER_COMMAND FOLDER_KEY
    (delete_entry true BG_COMMAND BG_KEY r)
  = r ∖ entry_keys.
Proof.
  intros Hbg Hfo Hnb Hnf.
  unfold BG_COMMAND in *. rewrite (delete_entry_installed BG_KEY r Hbg Hnb).
  unfold FOLDER_COMMAND in *. rewrite delete_entry_installed.
  - apply set_eq. intros k. rewrite !elem_of_difference, elem_of_entry_keys.
    rewrite !elem_of_singleton. unfold BG_COMMAND, FOLDER_COMMAND. tauto.
  - rewrite !elem_of_difference, !elem_of_singleton.
    split; [split; [assumption|]|]; discriminate.
  - eapply no_foreign_subkeys_subseteq; [|exact Hnf]. set_solver.
Qed.

Lemma entry_absent_no_foreign r key :
  entry_absent r key -> no_foreign_subkeys r key.
Proof. intros H k Hk Hpre. destruct (H k Hk Hpre). Qed.

Lemma installed_no_foreign r key :
  entry_absent r key ->
  no_foreign_subkeys (parent_keys ∪ entry_keys) key ->
  no_foreign_subkeys (r ∪ parent_keys ∪ entry_keys) key.
Proof.
  intros Habs Hown k Hk Hpre.
  rewrite <- (assoc_L (∪)) in Hk. apply elem_of_union in Hk as [Hk|Hk].
  - destruct (Habs k Hk Hpre).
  - now apply Hown.
Qed.

Lemma own_keys_no_foreign :
  no_foreign_subkeys (parent_keys ∪ entry_keys) BG_KEY /\
  no_foreign_subkeys (parent_keys ∪ entry_keys) FOLDER_KEY.
Proof. split; apply (bool_decide_unpack _); vm_compute; exact I. Qed.

Lemma entry_keys_apart r :
  entry_absent r BG_KEY -> entry_absent r FOLDER_KEY ->
  (r ∪ parent_keys ∪ entry_keys) ∖ entry_keys = r ∪ parent_keys.
Proof.
  intros Hb Hf. apply set_eq. intros k.
  rewrite elem_of_difference, !elem_of_union.
  split; [tauto|]. intros Hk. split; [tauto|].
  rewrite elem_of_entry_keys. intros Hin. destruct Hk as [Hk|Hk].
  - destruct Hin as [ -> | [ -> | [ -> | -> ] ] ].
    + apply (Hb _ Hk). reflexivity.
    + apply (Hb _ Hk). now exists ["command"].
    + apply (Hf _ Hk). reflexivity.
    + apply (Hf _ Hk). now exists ["command"].
  - apply elem_of_parent_keys in Hk.
    destruct Hin as [ -> | [ -> | [ -> | -> ] ] ];
      destruct Hk as [Hk|[Hk|[Hk|Hk]]]; discriminate Hk.
Qed.

Lemma files_after_uninstall_frame dw (c : option (gset string)) :
  let X := default ∅ c in
  let X' := default ∅ (files_after_uninstall dw c) in
  X' ⊆ X /\ X ∖ X' ⊆ {[ Path.launcher_name ]}.
Proof.
  cbv zeta. unfold files_after_uninstall. generalize Path.launcher_name.
  intros l. destruct c as [d|]; cbn [from_option id]; [|set_solver].
  repeat case_bool_decide; destruct dw; cbn [andb from_option id];
    subst; try set_solver.
  all: split; [set_solver|]; intros x Hx; destruct (decide (x = l));
    set_solver.
Qed.

Lemma launcher_gone (c : option (gset string)) :
  Path.launcher_name ∉ default ∅ (files_after_uninstall true c).
Proof.
  unfold files_after_uninstall. generalize Path.launcher_name. intros l.
  destruct c as [d|]; cbn [from_option id]; [|apply not_elem_of_empty].
  repeat case_bool_decide; cbn [andb from_option id];
    first [ apply not_elem_of_empty | apply not_elem_of_removed | assumption ].
Qed.

Lemma is_installed_answer w :
  result (is_installed w) = Ret (bool_decide (BG_KEY ∈ hkcr w)).
Proof. apply (Probes.is_installed_run w). Qed.

Lemma uninstall_installed w :
  hkcr_writable w = true ->
  disk_writable w = true ->
  BG_COMMAND ∈ hkcr w ->
  FOLDER_COMMAND ∈ hkcr w ->
  no_foreign_subkeys (hkcr w) BG_KEY ->
  no_foreign_subkeys (hkcr w) FOLDER_KEY ->
  let o := uninstall_context_menu w in
  result o = Ret true /\
  hkcr (final o) = hkcr w ∖ entry_keys /\
  launcher_present (final o) = false /\
  result (is_installed (final o)) = Ret false.
Proof.
  intros Hw Hd Hbg Hfo Hnb Hnf o. subst o.
  destruct (uninstall_context_menu_store w) as (Hr & Hk & Hc & _).
  rewrite Hw in Hk. rewrite Hd in Hc, Hr.
  rewrite (delete_entries_installed _ Hbg Hfo Hnb Hnf) in Hk.
  rewrite orb_true_r in Hr.
  split; [exact Hr|]. split; [exact Hk|]. split.
  - unfold launcher_present, entries. rewrite Hc.
    apply bool_decide_eq_false_2, launcher_gone.
  - rewrite is_installed_answer, Hk. f_equal.
    apply bool_decide_eq_false_2. rewrite elem_of_difference.
    intros [_ Hout]. apply Hout. apply elem_of_entry_keys. now left.
Qed.


End Store.

Import ContextMenuManager Menu.

(** X16. Install_context_menu never raises; it answers True exactly when both
    C:/Scripts and the registry can be written, and leaves the two write
    permissions as they were. *)
Theorem install_context_menu_answer w :
  let o := install_context_menu w in
  result o = Ret (disk_writable w && hkcr_writable w) /\
  disk_writable (final o) = disk_writable w /\
  hkcr_writable (final o) = hkcr_writable w.
Proof.
  intros o. destruct (Store.install_context_menu_store w) as (Hr & _ & _ & Hd & Hk).
  auto.
Qed.

(** X17. After install_context_menu answered True, both menu entries with their
    command keys are in the registry, the launcher is in C:/Scripts, nothing
    else was removed or added but the keys on the way, and the probe
    is_installed answers True. *)
Theorem installed_menu_is_detected w :
  let o := install_context_menu w in
  result o = Ret true ->
  hkcr (final o) = hkcr w ∪ parent_keys ∪ entry_keys /\
  entries (final o) = entries w ∪ {[ Path.launcher_name ]} /\
  result (is_installed (final o)) = Ret true.
Proof.
  intros o Hr. subst o.
  destruct (Store.install_context_menu_store w) as (Hr' & _ & Hs & _).
  rewrite Hr' in Hr. injection Hr as Hr. apply andb_true_iff in Hr as [Hd Hw].
  destruct (Hs Hd) as [Hc Hk]. rewrite Hw in Hk.
  split; [exact Hk|]. split.
  - unfold entries at 1. now rewrite Hc.
  - rewrite Store.is_installed_answer, Hk. f_equal.
    apply bool_decide_eq_true_2. apply elem_of_union_r.
    apply Store.elem_of_entry_keys. now left.
Qed.

Lemma installed_menu_is_detected_witness :
  let o := install_context_menu Hosts.without_menu in
  result o = Ret true /\ result (is_installed (final o)) = Ret true.
Proof.
  assert (H : result (install_context_menu Hosts.without_menu) = Ret true)
    by (vm_compute; reflexivity).
  split; [exact H|].
  apply (installed_menu_is_detected Hosts.without_menu H).
Defined.

(** X18. When C:/Scripts cannot be written, install_context_menu answers False
    and leaves the host exactly as it was: the registry is not touched. *)
Theorem install_without_disk_changes_nothing w :
  disk_writable w = false ->
  result (install_context_menu w) = Ret false /\
  final (install_context_menu w) = w.
Proof.
  intros Hd.
  destruct (Store.install_context_menu_store w) as (Hr & Hs & _).
  rewrite Hr, Hd. split; [reflexivity | now apply Hs].
Qed.

Lemma install_without_disk_changes_nothing_witness :
  let w := Hosts.ready_locked_disk [] in
  result (install_context_menu w) = Ret false /\
  final (install_context_menu w) = w.
Proof.
  apply (install_without_disk_changes_nothing (Hosts.ready_locked_disk [])).
  reflexivity.
Defined.

(** X19. When the registry cannot be written but C:/Scripts can,
    install_context_menu answers False after it wrote the launcher: the
    launcher stays, no key is added, nothing is rolled back. *)
Theorem install_leaves_launcher_when_registry_fails w :
  disk_writable w = true ->
  hkcr_writable w = false ->
  let o := install_context_menu w in
  result o = Ret false /\
  hkcr (final o) = hkcr w /\
  launcher_present (final o) = true.
Proof.
  intros Hd Hw o. subst o.
  destruct (Store.install_context_menu_store w) as (Hr & _ & Hs & _).
  destruct (Hs Hd) as [Hc Hk]. rewrite Hw in Hk. rewrite Hr, Hd, Hw.
  split; [reflexivity|]. split; [exact Hk|].
  unfold launcher_present, entries. rewrite Hc. cbn [from_option id].
  apply bool_decide_eq_true_2. apply Store.elem_of_added.
Qed.

Lemma install_leaves_launcher_when_registry_fails_witness :
  let w := Hosts.bare_denied in
  let o := install_context_menu w in
  launcher_present w = false /\
  result o = Ret false /\ hkcr (final o) = hkcr w /\
  launcher_present (final o) = true.
Proof.
  split; [vm_compute; reflexivity|].
  apply (install_leaves_launcher_when_registry_fails Hosts.bare_denied);
    reflexivity.
Defined.

(** X20. A second install_context_menu after a successful one succeeds again
    and leaves the registry and C:/Scripts as the first left them. *)
Theorem install_context_menu_idempotent w :
  let w1 := final (install_context_menu w) in
  result (install_context_menu w) = Ret true ->
  result (install_context_menu w1) = Ret true /\
  same_store w1 (final (install_context_menu w1)).
Proof.
  intros w1 Hr. subst w1.
  destruct (Store.install_context_menu_store w) as (Hr' & _ & Hs & Hd1 & Hw1).
  rewrite Hr' in Hr. injection Hr as Hr. apply andb_true_iff in Hr as [Hd Hw].
  destruct (Hs Hd) as [Hc Hk]. rewrite Hw in Hk.
  rewrite Hd in Hd1. rewrite Hw in Hw1.
  destruct (Store.install_context_menu_store (final (install_context_menu w)))
    as (Hr2 & _ & Hs2 & _).
  destruct (Hs2 Hd1) as [Hc2 Hk2]. rewrite Hw1 in Hk2.
  rewrite Hr2, Hd1, Hw1. split; [reflexivity|]. split.
  - rewrite Hk2, Hk. apply Store.union_twice.
  - rewrite Hc2. unfold entries. rewrite Hc. cbn [from_option id].
    f_equal. apply Store.add_twice.
Qed.

Lemma install_context_menu_idempotent_witness :
  let w1 := final (install_context_menu Hosts.without_menu) in
  result (install_context_menu w1) = Ret true /\
  same_store w1 (final (install_context_menu w1)).
Proof.
  apply (install_context_menu_idempotent Hosts.without_menu).
  vm_compute. reflexivity.
Defined.

(** X21. Uninstall_context_menu never raises, and answers False in one case
    only: the launcher exists and cannot be deleted. No registry error
    makes it fail. *)
Theorem uninstall_fails_only_on_launcher w :
  result (uninstall_context_menu w)
  = Ret (negb (launcher_present w) || disk_writable w).
Proof. apply (Store.uninstall_context_menu_store w). Qed.

(** X22. Uninstall_context_menu adds nothing; of the registry it removes at
    most the two menu entries and their command keys, of C:/Scripts at most
    the launcher; it runs no command and reads no operator input. *)
Theorem uninstall_touches_only_the_menu w :
  let w' := final (uninstall_context_menu w) in
  hkcr w' ⊆ hkcr w /\
  hkcr w ∖ hkcr w' ⊆ entry_keys /\
  entries w' ⊆ entries w /\
  entries w ∖ entries w' ⊆ {[ Path.launcher_name ]} /\
  issued w' = issued w /\
  stdin w' = stdin w.
Proof.
  intros w'. subst w'.
  destruct (Store.uninstall_context_menu_store w)
    as (_ & Hk & Hc & _ & _ & Hi & Hs).
  split; [|split; [|split; [|split; [|split; assumption]]]].
  - rewrite Hk. etransitivity; apply Store.delete_entry_subseteq.
  - rewrite Hk. intros k [Hin Hout]%elem_of_difference.
    apply Store.elem_of_entry_keys.
    destruct (decide (k ∈ delete_entry (hkcr_writable w) BG_COMMAND BG_KEY
                           (hkcr w))) as [Hmid|Hmid].
    + destruct (Store.delete_entry_removed _ _ _ _ _ Hmid Hout); auto.
    + destruct (Store.delete_entry_removed _ _ _ _ _ Hin Hmid); auto.
  - unfold entries. rewrite Hc.
    apply (Store.files_after_uninstall_frame (disk_writable w) (c_scripts w)).
  - unfold entries. rewrite Hc.
    apply (Store.files_after_uninstall_frame (disk_writable w) (c_scripts w)).
Qed.

(** X23. Uninstall_context_menu can answer True and leave the menu in place:
    when the background entry is there but the registry cannot be written,
    or its command key is missing, the entry survives and the probe
    is_installed still answers True. *)
Theorem uninstall_success_can_leave_the_menu w :
  BG_KEY ∈ hkcr w ->
  hkcr_writable w = false \/ BG_COMMAND ∉ hkcr w ->
  launcher_present w = false ->
  let o := uninstall_context_menu w in
  result o = Ret true /\
  result (is_installed (final o)) = Ret true.
Proof.
  intros Hbg Hwhy Hl o. subst o.
  destruct (Store.uninstall_context_menu_store w) as (Hr & Hk & _).
  rewrite Hr, Hl. split; [reflexivity|].
  rewrite Store.is_installed_answer. f_equal. apply bool_decide_eq_true_2.
  rewrite Hk. rewrite (Store.delete_entry_kept _ BG_COMMAND BG_KEY _ Hwhy).
  destruct (decide (BG_KEY ∈ delete_entry (hkcr_writable w) FOLDER_COMMAND
                             FOLDER_KEY (hkcr w))) as [|Hout]; [assumption|].
  destruct (Store.delete_entry_removed _ _ _ _ _ Hbg Hout) as [H|H];
    discriminate H.
Qed.

Lemma uninstall_success_can_leave_the_menu_witness :
  let w := Hosts.background_key_only in
  let o := uninstall_context_menu w in
  result (is_installed w) = Ret true /\
  result o = Ret true /\
  result (is_installed (final o)) = Ret true.
Proof.
  split; [vm_compute; reflexivity|].
  apply (uninstall_success_can_leave_the_menu Hosts.background_key_only).
  - apply (bool_decide_unpack _). vm_compute. exact I.
  - right. apply (bool_decide_eq_false_1 _). vm_compute. reflexivity.
  - vm_compute. reflexivity.
Defined.

(** X24. On a host where both can be written and the two entries are as
    install_context_menu leaves them (each with its command key and nothing
    else below it), uninstall_context_menu answers True, removes exactly
    the four keys and the launcher, and the probe is_installed then answers
    False. *)
Theorem uninstall_removes_installed_menu w :
  hkcr_writable w = true ->
  disk_writable w = true ->
  BG_COMMAND ∈ hkcr w ->
  FOLDER_COMMAND ∈ hkcr w ->
  no_foreign_subkeys (hkcr w) BG_KEY ->
  no_foreign_subkeys (hkcr w) FOLDER_KEY ->
  let o := uninstall_context_menu w in
  result o = Ret true /\
  hkcr (final o) = hkcr w ∖ entry_keys /\
  launcher_present (final o) = false /\
  result (is_installed (final o)) = Ret false.
Proof. apply Store.uninstall_installed. Qed.

Lemma uninstall_removes_installed_menu_witness :
  let w := Hosts.ready [] in
  let o := uninstall_context_menu w in
  result (is_installed w) = Ret true /\
  result o = Ret true /\
  hkcr (final o) = hkcr w ∖ entry_keys /\
  launcher_present (final o) = false /\
  result (is_installed (final o)) = Ret false.
Proof.
  split; [vm_compute; reflexivity|].
  apply (uninstall_removes_installed_menu (Hosts.ready []));
    first [ reflexivity | apply (bool_decide_unpack _); vm_compute; exact I ].
Defined.

(** X25. Installing and then uninstalling on a host where both can be written
    and nothing of the two entries was there before: the registry is as
    before except for the keys above the entries, which stay; C:/Scripts
    keeps its other files, and is removed when it held none, also when it
    existed before. *)
Theorem install_then_uninstall w :
  hkcr_writable w = true ->
  disk_writable w = true ->
  entry_absent (hkcr w) BG_KEY ->
  entry_absent (hkcr w) FOLDER_KEY ->
  launcher_present w = false ->
  let w1 := final (install_context_menu w) in
  let o := uninstall_context_menu w1 in
  result o = Ret true /\
  hkcr (final o) = hkcr w ∪ parent_keys /\
  c_scripts (final o)
  = (if bool_decide (entries w = ∅) then None else c_scripts w).
Proof.
  intros Hw Hd Hab Haf Hl w1 o. subst o w1.
  destruct (Store.install_context_menu_store w) as (_ & _ & Hs & Hd1 & Hw1).
  destruct (Hs Hd) as [Hc Hk]. rewrite Hw in Hk, Hw1. rewrite Hd in Hd1.
  set (w1 := final (install_context_menu w)) in *.
  destruct Store.own_keys_no_foreign as [Hob Hof].
  assert (Hin : forall k, k ∈ entry_keys -> k ∈ hkcr w1).
  { intros k Hk'. rewrite Hk. now apply elem_of_union_r. }
  destruct (Store.uninstall_installed w1 Hw1 Hd1) as (Hr & Hk2 & _).
  - apply Hin, Store.elem_of_entry_keys. auto.
  - apply Hin, Store.elem_of_entry_keys. auto.
  - rewrite Hk. now apply Store.installed_no_foreign.
  - rewrite Hk. now apply Store.installed_no_foreign.
  - split; [exact Hr|]. split.
    + rewrite Hk2, Hk. now apply Store.entry_keys_apart.
    + destruct (Store.uninstall_context_menu_store w1) as (_ & _ & Hc2 & _).
      rewrite Hc2, Hc, Hd1. unfold files_after_uninstall.
      apply bool_decide_eq_false in Hl.
      rewrite bool_decide_eq_true_2 by apply Store.elem_of_added.
      rewrite (Store.add_remove _ _ Hl). destruct (bool_decide (entries w = ∅)) eqn:Hem;
        [reflexivity|].
      unfold entries in *. destruct (c_scripts w); [reflexivity|].
      cbn [from_option id] in Hem. now apply bool_decide_eq_false in Hem.
Qed.

Lemma install_then_uninstall_witness :
  let w := Hosts.without_menu in
  let o := uninstall_context_menu (final (install_context_menu w)) in
  result o = Ret true /\
  hkcr (final o) = hkcr w ∪ parent_keys /\
  c_scripts (final o) = None.
Proof.
  apply (install_then_uninstall Hosts.without_menu);
    first [ reflexivity | apply (bool_decide_unpack _); vm_compute; exact I
          | vm_compute; reflexivity ].
Defined.

(** ** The entry point and the modes *)

Module Dispatch.
Import WSLManager ClaudeCodeManager ContextMenuManager ClaudeInstaller.


(** A sub-computation taken as it is. *)
Lemma wp_itself {A} (m : M A) w (Q : Res A -> World -> list Event -> Prop) :
  Q (result (m w)) (final (m w)) (events (m w)) -> wp m w Q.
Proof. exact (fun H => H). Qed.



Lemma dispatch_shape {A} (mode : M A) (f : A -> Z) w :
  let o :=
    (finished <- ret false ;;
     if (finished : bool) then ret 0%Z
     else
       try_except (x <- mode ;; ret (f x))
         (any_exception (colored_print "\nUnexpected error" ;; ret 1%Z))) w in
  result o = match result (mode w) with
             | Ret a => Ret (f a)
             | Raise _ => Ret 1%Z
             end /\
  final o = final (mode w) /\
  events o =
    events (mode w)
    ++ match result (mode w) with
       | Ret _ => []
       | Raise _ => [Printed "\nUnexpected error"]
       end.
Proof.
  unfold try_except, bind, any_exception, colored_print, emit, ret.
  cbn [result final events app].
  destruct (result (mode w)); cbn; rewrite ?app_nil_r; repeat split.
Qed.

Ltac use_flags :=
  unfold main, no_arguments;
  repeat match goal with
    | H : _ = true |- _ => rewrite H
    | H : _ = false |- _ => rewrite H
    end;
  rewrite ?orb_true_r; cbn [orb negb andb]; cbv iota.

(** The uninstall mode on a host that passes the prerequisite check and has
    the background entry hands over to [uninstall_context_menu]. *)
Lemma uninstall_mode_delegates w :
  prerequisites_met w = true ->
  BG_KEY ∈ hkcr w ->
  result (uninstall w) = result (uninstall_context_menu w) /\
  final (uninstall w) = final (uninstall_context_menu w).
Proof.
  intros Hmet Hbg.
  change (wp uninstall w
            (fun r w1 _ =>
               r = result (uninstall_context_menu w) /\
               w1 = final (uninstall_context_menu w))).
  unfold uninstall.
  repeat first
    [ lazymatch goal with
      | |- wp check_prerequisites _ _ =>
          apply Modes.wp_check_prerequisites; intros ? ?; rewrite Hmet
      | |- wp is_installed _ _ =>
          apply Modes.wp_is_installed;
          rewrite (bool_decide_eq_true_2 _ Hbg)
      | |- wp uninstall_context_menu _ _ => apply wp_itself
      end
    | wp_step ].
  split; reflexivity.
Qed.

Lemma main_uninstall_final w :
  final (main uninstall_args w) = final (uninstall w).
Proof.
  change (wp (main uninstall_args) w (fun _ w1 _ => w1 = final (uninstall w))).
  Modes.main_dispatch. apply wp_itself.
  destruct (result (uninstall w)); repeat wp_step; reflexivity.
Qed.

Lemma main_status_final w :
  final (main status_args w) = final (show_status w).
Proof.
  change (wp (main status_args) w (fun _ w1 _ => w1 = final (show_status w))).
  Modes.main_dispatch. apply wp_itself.
  destruct (result (show_status w)); repeat wp_step; reflexivity.
Qed.
End Dispatch.

Import Dispatch.


(** X10. The flags are looked at in a fixed order: --status wins over
    --uninstall, which wins over --context-only. The selected mode is the
    only thing run: main ends in the state the mode left, with the mode's
    events, and the exit status is 0 after the status display, 0 or 1 as
    the mode answered for the two others, and 1 with the error line added
    when the mode raised. *)
Theorem flag_precedence args w :
  let o := main args w in
  (arg_status args = true ->
   runs_mode o (ClaudeInstaller.show_status w)
     (status_exit (result (ClaudeInstaller.show_status w)))) /\
  (arg_status args = false -> arg_uninstall args = true ->
   runs_mode o (ClaudeInstaller.uninstall w)
     (exit_of (result (ClaudeInstaller.uninstall w)))) /\
  (arg_status args = false -> arg_uninstall args = false ->
   arg_context_only args = true ->
   runs_mode o (ClaudeInstaller.install_context_menu_only w)
     (exit_of (result (ClaudeInstaller.install_context_menu_only w)))).
Proof.
  intros o. subst o. unfold runs_mode. repeat split; intros; use_flags.
  all: lazymatch goal with
    | |- context [ClaudeInstaller.show_status ?w0] =>
        pose proof (dispatch_shape ClaudeInstaller.show_status (fun _ => 0%Z) w0)
          as (Hres & Hfin & Hev)
    | |- context [ClaudeInstaller.uninstall ?w0] =>
        pose proof (dispatch_shape ClaudeInstaller.uninstall exit_status w0)
          as (Hres & Hfin & Hev)
    | |- context [ClaudeInstaller.install_context_menu_only ?w0] =>
        pose proof
          (dispatch_shape ClaudeInstaller.install_context_menu_only
             exit_status w0)
          as (Hres & Hfin & Hev)
    end.
  all: first [ exact Hfin | exact Hev | idtac ].
  all: etransitivity; [ exact Hres | ];
    match goal with |- context [result ?o] => destruct (result o) end;
    reflexivity.
Qed.

Lemma flag_precedence_witness :
  let w := Hosts.without_menu in
  runs_mode (main (mkArgs true true true false false) w)
    (ClaudeInstaller.show_status w)
    (status_exit (result (ClaudeInstaller.show_status w))) /\
  runs_mode (main (mkArgs true true false false false) w)
    (ClaudeInstaller.uninstall w)
    (exit_of (result (ClaudeInstaller.uninstall w))) /\
  runs_mode (main (mkArgs true false false false false) w)
    (ClaudeInstaller.install_context_menu_only w)
    (exit_of (result (ClaudeInstaller.install_context_menu_only w))).
Proof.
  intros w. split; [|split].
  - apply (flag_precedence (mkArgs true true true false false) w). reflexivity.
  - apply (flag_precedence (mkArgs true true false false false) w);
      reflexivity.
  - apply (flag_precedence (mkArgs true false false false false) w);
      reflexivity.
Defined.




(** X13. check_prerequisites never raises and never changes the host; all
    it does is print. It answers True exactly when the elevation check
    answers True and the interpreter is at least 3.6: an elevation check
    that raises counts as not elevated, and a Windows version that cannot
    be read is only a warning. *)
Theorem prerequisites_are_elevation_and_version w :
  let o := ClaudeInstaller.check_prerequisites w in
  (exists b, result o = Ret b) /\
  (result o = Ret true <->
   IsUserAnAdmin w = Some true /\
   (3 < fst (version_info w) \/
    (fst (version_info w) = 3 /\ 6 <= snd (version_info w)))%nat) /\
  final o = w /\
  forallb is_print (events o) = true.
Proof.
  intros o. subst o.
  destruct (Modes.check_prerequisites_run w) as (Hr & Hf & Hp).
  split; [eauto|]. split; [|auto].
  rewrite Hr. unfold prerequisites_met, ClaudeInstaller.version_too_old.
  destruct (IsUserAnAdmin w) as [[|]|]; cbn [andb].
  - split.
    + intros [= Hv]. split; [reflexivity|].
      apply negb_true_iff, orb_false_iff in Hv as [H1 H2].
      apply Nat.ltb_ge in H1.
      destruct (Nat.eqb_spec (fst (version_info w)) 3) as [He|Hne].
      * cbn [andb] in H2. apply Nat.ltb_ge in H2. lia.
      * lia.
    + intros [_ Hv]. f_equal. apply negb_true_iff, orb_false_iff.
      destruct Hv as [Hv|[Hv1 Hv2]].
      * split; [apply Nat.ltb_ge; lia|].
        apply andb_false_iff. left. apply Nat.eqb_neq. lia.
      * split; [apply Nat.ltb_ge; lia|].
        apply andb_false_iff. right. apply Nat.ltb_ge. lia.
  - split; [discriminate | intros [[=] _]].
  - split; [discriminate | intros [[=] _]].
Qed.

(** X14. The status display only looks at the host, whatever the probes
    answer and also when it ends with an exception: the registry keys and
    the files are as before, every command it runs is one of the four
    queries, and no installer or remover is entered. main --status ends in
    the state the display left. *)
Theorem status_never_changes_the_host w :
  let shown := ClaudeInstaller.show_status w in
  observed w (final shown) (events shown) /\
  final (main status_args w) = final shown.
Proof.
  intros shown. subst shown.
  split; [apply (Status.show_status_observes w) | apply main_status_final].
Qed.

(** X15. --uninstall on a host that passes the prerequisite check, where
    the registry and C:/Scripts can be written and both menu entries are
    as install_context_menu leaves them: main ends with exit status 0, the
    four keys are gone and nothing else of the registry is, and the probe
    is_installed then answers False. *)
Theorem uninstall_mode_removes_installed_menu w :
  prerequisites_met w = true ->
  hkcr_writable w = true ->
  disk_writable w = true ->
  BG_KEY ∈ hkcr w ->
  Menu.BG_COMMAND ∈ hkcr w ->
  Menu.FOLDER_COMMAND ∈ hkcr w ->
  Menu.no_foreign_subkeys (hkcr w) BG_KEY ->
  Menu.no_foreign_subkeys (hkcr w) FOLDER_KEY ->
  let o := main uninstall_args w in
  result o = Ret 0%Z /\
  hkcr (final o) = hkcr w ∖ Menu.entry_keys /\
  result (ContextMenuManager.is_installed (final o)) = Ret false.
Proof.
  intros Hmet Hw Hd Hbg Hbc Hfc Hnb Hnf o. subst o.
  destruct (uninstall_mode_delegates w Hmet Hbg) as [Hr Hfin].
  destruct (Store.uninstall_installed w Hw Hd Hbc Hfc Hnb Hnf)
    as (Hres & Hk & _ & Hprobe).
  rewrite Modes.main_uninstall_result, main_uninstall_final, Hr, Hfin, Hres.
  repeat split; assumption.
Qed.

Lemma uninstall_mode_removes_installed_menu_witness :
  let w := Hosts.ready [] in
  let o := main uninstall_args w in
  result (ContextMenuManager.is_installed w) = Ret true /\
  result o = Ret 0%Z /\
  hkcr (final o) = hkcr w ∖ Menu.entry_keys /\
  result (ContextMenuManager.is_installed (final o)) = Ret false.
Proof.
  split; [vm_compute; reflexivity|].
  apply (uninstall_mode_removes_installed_menu (Hosts.ready []));
    first [ reflexivity | apply (bool_decide_unpack _); vm_compute; exact I ].
Defined.

(** ** The full installation, further *)

(** X1. When the operator confirms the restart after the virtualization
    layer was installed, the full installation ends at once with False:
    the prompt is its last step and nothing of a later stage is called. *)
Theorem restart_confirmed_ends_the_run (w : World) (a : string) :
  let o := ClaudeInstaller.install_full w in
  let log := call_log o in
  Input restart_prompt (Some a) ∈ log ->
  confirms a = true ->
  result o = Ret false /\
  last log = Some (Input restart_prompt (Some a)) /\
  Leave InstallWsl true ∈ log /\
  (forall m, stage_of m <> VirtualizationLayer -> Enter m ∉ log).
Proof.
  intros o log. subst o log. by_shape w; intros Hin Hyes.
  - mem_hyp Hin.
  - chain_cases.
    all: mem_hyp Hin; simplify_eq; try congruence.
    all: (split; [reflexivity |]).
    all: (split; [reflexivity |]).
    all: (split; [mem_goal |]).
    all: intros m Hm; destruct m; try (destruct (Hm eq_refl)); intros Hx;
      mem_hyp Hx.
Qed.

Lemma restart_confirmed_ends_the_run_witness :
  let o := ClaudeInstaller.install_full (Examples.fresh ["y"]) in
  Input restart_prompt (Some "y") ∈ call_log o /\
  result o = Ret false /\
  last (call_log o) = Some (Input restart_prompt (Some "y")).
Proof.
  intros o.
  assert (H : Input restart_prompt (Some "y") ∈ call_log o) by decide_mem.
  destruct (restart_confirmed_ends_the_run (Examples.fresh ["y"]) "y" H eq_refl)
    as (Hr & Hl & _).
  repeat split; assumption.
Defined.

(** X2. A full installation that answers True has walked the whole
    chain: every stage was found satisfied or its installer succeeded, no
    installer of the first three stages failed, and the probes were
    consulted in chain order, the application probe twice. *)
Theorem success_means_every_stage_in_place (w : World) :
  let o := ClaudeInstaller.install_full w in
  let log := call_log o in
  result o = Ret true ->
  (forall s, (s, AlreadySatisfied) ∈ report log \/ (s, Applied) ∈ report log) /\
  (forall s, s <> ShellIntegration -> (s, Failed) ∉ report log) /\
  probes_entered log = probe_walk.
Proof.
  intros o log. subst o log. by_shape w; intros Hr; try discriminate Hr.
  subst. chain_cases.
  all: (split; [ idtac | split ]).
  all: try (intros s; destruct s; first [left; decide_mem | right; decide_mem]).
  all: try (intros s Hs; destruct s; try (destruct (Hs eq_refl)); decide_mem).
  all: vm_compute; reflexivity.
Qed.

Lemma success_means_every_stage_in_place_witness :
  let o := ClaudeInstaller.install_full (Examples.fresh ["n"]) in
  result o = Ret true /\ probes_entered (call_log o) = probe_walk.
Proof.
  intros o.
  assert (H : result o = Ret true) by (vm_compute; reflexivity).
  destruct (success_means_every_stage_in_place (Examples.fresh ["n"]) H)
    as (_ & _ & Hp).
  split; assumption.
Defined.

(** X3. However a full installation ends, the probes it has consulted
    are an initial part of the chain walk: no probe of a later stage is
    consulted before the probes of the earlier stages. *)
Theorem probes_follow_the_chain (w : World) :
  let log := call_log (ClaudeInstaller.install_full w) in
  probes_entered log `prefix_of` probe_walk.
Proof.
  intros log. subst log. by_shape w.
  - apply prefix_nil.
  - chain_cases.
    all: apply (bool_decide_unpack _); vm_compute; exact I.
Qed.

(** X4. When the operator's input has ended at a prompt of the full
    installation, input raises EOFError, which no handler of install_full
    catches: the prompt is the last step, install_full raises, and main
    ends with exit status 1. *)
Theorem unanswered_prompt_raises (w : World) (prompt : string) :
  let o := ClaudeInstaller.install_full w in
  Input prompt None ∈ call_log o ->
  result o = Raise EOFError /\
  last (call_log o) = Some (Input prompt None) /\
  result (main console_args w) = Ret 1%Z.
Proof.
  intros o. subst o. rewrite Modes.main_console_result.
  by_shape w; intros Hin.
  - mem_hyp Hin.
  - chain_cases.
    all: mem_hyp Hin; simplify_eq.
    all: repeat split; reflexivity.
Qed.

Lemma unanswered_prompt_raises_witness :
  let o := ClaudeInstaller.install_full (Hosts.ready []) in
  Input update_prompt None ∈ call_log o /\
  result o = Raise EOFError /\
  result (main console_args (Hosts.ready [])) = Ret 1%Z.
Proof.
  intros o.
  assert (H : Input update_prompt None ∈ call_log o) by decide_mem.
  destruct (unanswered_prompt_raises (Hosts.ready []) update_prompt H)
    as (Hr & _ & Hm).
  repeat split; assumption.
Defined.

(** ** Two runs in a row *)

Module Twice.
Import WSLManager ClaudeCodeManager ContextMenuManager ClaudeInstaller Menu.

(** Using what is known of a sub-computation, its final state included. *)
Lemma wp_summary {A} (m : M A) w (S : Outcome A -> Prop) Q :
  S (m w) ->
  (forall r w1 e, S (mkOutcome r w1 e) -> Q r w1 e) ->
  wp m w Q.
Proof. intros HS H. unfold wp. apply H. now destruct (m w). Qed.



Lemma ran_only_advances w w1 : ran_only w w1 -> advances w w1.
Proof. intros [t ->]. repeat split. now exists t. Qed.

Lemma ran_only_refl w : ran_only w w.
Proof. exists []. rewrite app_nil_r. now destruct w. Qed.

Lemma ran_only_trans w1 w2 w3 : ran_only w1 w2 -> ran_only w2 w3 -> ran_only w1 w3.
Proof.
  intros [t ->] [t' ->]. exists (t ++ t'). cbn [issued set_issued].
  rewrite <- List.app_assoc. reflexivity.
Qed.


Ltac ran_leaf :=
  cbn [result final events issued set_issued respond];
  eexists; cbn [issued set_issued]; rewrite <- ?List.app_assoc; reflexivity.

(** *** The probes *)


Lemma is_wsl_installed_answer w b :
  result (is_wsl_installed w) = Ret b ->
  b = wsl_found (respond w) (issued w) /\
  steps (events (is_wsl_installed w)) = [Enter IsWslInstalled; Leave IsWslInstalled b] /\
  ran_only w (final (is_wsl_installed w)).
Proof.
  unfold wsl_found.
  change (wp is_wsl_installed w
            (fun r w1 e =>
               r = Ret b ->
               b = exited_zero (respond w (issued w) version_query) /\
               steps e = [Enter IsWslInstalled; Leave IsWslInstalled b] /\
               ran_only w w1)).
  unfold is_wsl_installed. fold version_query.
  repeat wp_step;
    match goal with H : respond _ _ _ = _ |- _ => rewrite H end;
    cbn [exited_zero returncode]; intros [= <-];
    (split; [reflexivity|]); (split; [reflexivity|]); ran_leaf.
Qed.








(** *** The sections of a first run *)




Lemma run_checked_all layer h commands :
  snd (run_checked layer h commands) = true ->
  fst (run_checked layer h commands) = commands.
Proof.
  revert h. induction commands as [|c rest IH]; intros h; [reflexivity|].
  cbn [run_checked]. destruct (exited_zero (layer h c)); [|discriminate].
  specialize (IH (h ++ [c])).
  destruct (run_checked layer (h ++ [c]) rest) as [ran ok]. cbn [fst snd] in *.
  intros Hok. now rewrite IH.
Qed.








(** *** A first run as a whole *)











(** *** A run that finds everything in place *)



(** *** The example process layer *)









End Twice.


